(** * appstats: request statistics, stack reconstruction and time bucketing

    A shallow embedding of [types.go] (package [appstats]).  Go values are
    modelled as follows:

    - [int], [int64], [time.Duration]: [Z]; the places where 64-bit
      arithmetic could wrap are written out with [int_wrap];
    - [string]: a list of bytes ([list ascii]), indexed from 0;
    - slices: lists; a slice of pointers [[]*T] is a [list (option T)],
      [None] being the nil pointer;
    - run-time panics (slice bounds, index out of range, nil dereference):
      the [result] monad below. *)

From Stdlib Require Import ZArith List Ascii String Bool Lia.
From Stdlib Require Import Permutation.
Import ListNotations.
Open Scope Z_scope.

(** ** Go values and panics *)

Definition gostring : Type := list ascii.

Definition str (s : string) : gostring := list_ascii_of_string s.

Definition len {A : Type} (l : list A) : Z := Z.of_nat (List.length l).

Inductive panic : Type :=
| SliceBoundsOutOfRange
| IndexOutOfRange
| NilDereference.

Inductive result (A : Type) : Type :=
| Ok (a : A)
| Panic (p : panic).

Arguments Ok {A} a.
Arguments Panic {A} p.

Definition bind {A B : Type} (m : result A) (k : A -> result B) : result B :=
  match m with
  | Ok a => k a
  | Panic p => Panic p
  end.

Notation "x <- m ;; k" := (bind m (fun x => k))
  (at level 61, m at next level, right associativity).

(** [int] is 64 bits wide (strconv.IntSize = 64). *)
Definition intSize : Z := 64.
Definition maxInt : Z := 2 ^ (intSize - 1) - 1.
Definition minInt : Z := - 2 ^ (intSize - 1).
Definition int_wrap (z : Z) : Z :=
  (z + 2 ^ (intSize - 1)) mod 2 ^ intSize - 2 ^ (intSize - 1).

(** [s[lo:hi]] on a string and [l[lo:]] on a slice: both panic when the
    bounds are not ordered inside the value. *)
Definition slice (s : gostring) (lo hi : Z) : result gostring :=
  if (0 <=? lo) && (lo <=? hi) && (hi <=? len s)
  then Ok (firstn (Z.to_nat (hi - lo)) (skipn (Z.to_nat lo) s))
  else Panic SliceBoundsOutOfRange.

Definition slice_from {A : Type} (l : list A) (lo : Z) : result (list A) :=
  if (0 <=? lo) && (lo <=? len l)
  then Ok (skipn (Z.to_nat lo) l)
  else Panic SliceBoundsOutOfRange.

(** [l[i]]. *)
Definition index {A : Type} (l : list A) (i : Z) : result A :=
  if (0 <=? i) && (i <? len l)
  then match nth_error l (Z.to_nat i) with
       | Some a => Ok a
       | None => Panic IndexOutOfRange
       end
  else Panic IndexOutOfRange.

(** Dereference of a pointer. *)
Definition deref {A : Type} (p : option A) : result A :=
  match p with
  | Some a => Ok a
  | None => Panic NilDereference
  end.

(** ** Package [strings] *)

Definition nl : ascii := ascii_of_nat 10.
Definition tab : ascii := ascii_of_nat 9.
Definition space : ascii := " "%char.
Definition colon : ascii := ":"%char.

(** [strings.Split(s, sep)] for a one-byte separator: the substrings between
    the separators, in order; a string without separator is returned whole,
    so the result is never empty. *)
Fixpoint Split (s : gostring) (sep : ascii) : list gostring :=
  match s with
  | [] => [[]]
  | c :: s' =>
      if Ascii.eqb c sep then [] :: Split s' sep
      else match Split s' sep with
           | l :: ls => (c :: l) :: ls
           | [] => [[c]]
           end
  end.

(** [strings.LastIndex(s, sep)] for a one-byte separator: the index of the
    last occurrence, or -1. *)
Fixpoint LastIndex (s : gostring) (sep : ascii) : Z :=
  match s with
  | [] => -1
  | c :: s' =>
      let k := LastIndex s' sep in
      if k =? -1 then (if Ascii.eqb c sep then 0 else -1) else k + 1
  end.

(** ** Package [strconv] *)

Inductive NumError : Type := ErrSyntax | ErrRange.

Definition maxUint64 : Z := 2 ^ 64 - 1.

Definition is_digit (c : ascii) : bool :=
  (48 <=? Z.of_nat (nat_of_ascii c)) && (Z.of_nat (nat_of_ascii c) <=? 57).

Definition digit_val (c : ascii) : Z := Z.of_nat (nat_of_ascii c) - 48.

(** The digit loop of [strconv.ParseUint(s, 10, 64)] with accumulator [n].
    A byte that is not a decimal digit ends the loop with a syntax error and
    value 0; an accumulator that would leave uint64 ends it with a range
    error and the maximal value, before the remaining bytes are looked at. *)
Fixpoint ParseUint_loop (s : gostring) (n : Z) : Z * option NumError :=
  match s with
  | [] => (n, None)
  | c :: s' =>
      if is_digit c then
        if maxUint64 / 10 + 1 <=? n then (maxUint64, Some ErrRange)
        else
          let n10 := n * 10 in
          let n1 := (n10 + digit_val c) mod 2 ^ 64 in
          if (n1 <? n10) || (maxUint64 <? n1) then (maxUint64, Some ErrRange)
          else ParseUint_loop s' n1
      else (0, Some ErrSyntax)
  end.

Definition ParseUint (s : gostring) : Z * option NumError :=
  match s with
  | [] => (0, Some ErrSyntax)
  | _ => ParseUint_loop s 0
  end.

(** [strconv.ParseInt(s, 10, 0)]: an optional sign, then [ParseUint]; a
    syntax error gives 0, a magnitude outside [int] gives the nearest bound
    with a range error. *)
Definition ParseInt (s : gostring) : Z * option NumError :=
  match s with
  | [] => (0, Some ErrSyntax)
  | c :: s' =>
      let neg := Ascii.eqb c "-" in
      let body := if Ascii.eqb c "+" || neg then s' else s in
      match ParseUint body with
      | (_, Some ErrSyntax) => (0, Some ErrSyntax)
      | (un, _) =>
          let cutoff := 2 ^ (intSize - 1) in
          if negb neg && (cutoff <=? un) then (cutoff - 1, Some ErrRange)
          else if neg && (cutoff <? un) then (- cutoff, Some ErrRange)
          else (if neg then int_wrap (- int_wrap un) else int_wrap un, None)
      end
  end.

(** [strconv.Atoi(s)] is [ParseInt(s, 10, 0)] converted to [int]. *)
Definition Atoi (s : gostring) : Z * option NumError := ParseInt s.

(** ** Package [time] *)

Module time.

(** [time.Time]: the seconds since the epoch of the package and the
    nanosecond offset inside that second, which the package keeps in
    [0, 999999999].  The monotonic clock reading and the location are
    not modelled. *)
Record Time : Type := mkTime {
  sec : Z;
  nsec : Z;
  nsec_range : (0 <=? nsec) && (nsec <=? 999999999) = true
}.

(** [time.Duration]: an int64 count of nanoseconds. *)
Definition Duration : Type := Z.
Definition minDuration : Z := - 2 ^ 63.
Definition maxDuration : Z := 2 ^ 63 - 1.

Definition Nanosecond (t : Time) : Z := nsec t.

(** The instant of [t] as a count of nanoseconds since the epoch. *)
Definition instant (t : Time) : Z := sec t * 1000000000 + nsec t.

(** [t.Before(u)]: the instant [t] is strictly earlier than [u]. *)
Definition Before (t u : Time) : bool :=
  (sec t <? sec u) || ((sec t =? sec u) && (nsec t <? nsec u)).

(** [t.Sub(u)]: the duration [t - u] in nanoseconds; a difference that
    does not fit a [Duration] is replaced by the nearest bound. *)
Definition Sub (t u : Time) : Duration :=
  let d := (sec t - sec u) * 1000000000 + (nsec t - nsec u) in
  if d <? minDuration then minDuration
  else if maxDuration <? d then maxDuration
  else d.

End time.

(** ** Call records and stack reconstruction *)

Record rpcStat : Type := mk_rpcStat {
  Service : gostring;
  rpc_Method : gostring;
  rpc_Start : time.Time;
  Offset : time.Duration;
  rpc_Duration : time.Duration;
  StackData : gostring;
  rpc_In : gostring;
  rpc_Out : gostring;
  rpc_Cost : Z
}.

Record frame : Type := mk_frame {
  Location : gostring;
  Call : gostring;
  Lineno : Z
}.

Definition stack : Type := list frame.

Definition rpcStat_Name (r : rpcStat) : gostring := Service r ++ str "." ++ rpc_Method r.
Definition Request (r : rpcStat) : gostring := rpc_In r.
Definition Response (r : rpcStat) : gostring := rpc_Out r.

(** The loop [for i := 0; i+1 < len(lines); i++ { ... }] of [Stack], from
    index [i] on, [frames] being the slice appended to.  A turn reads
    [lines[i]], steps to the next line and reads it three times;
    [continue] and the end of the body both go on at [i+1].  Each turn
    moves on by two lines, so [fuel] turns are enough once
    [len(lines) <= 2*fuel + 1]. *)
Fixpoint Stack_for (fuel : nat) (lines : list gostring) (i : Z)
    (frames : stack) : result stack :=
  match fuel with
  | O => Ok frames
  | S fuel' =>
      if i + 1 <? len lines then
        call <- index lines i ;;
        let i := i + 1 in
        line_idx <- index lines i ;;
        let idx := LastIndex line_idx space in
        line_cidx <- index lines i ;;
        let cidx := LastIndex line_cidx colon in
        if (idx =? -1) || (cidx =? -1) then Stack_for fuel' lines (i + 1) frames
        else
          line <- index lines i ;;
          location <- slice line 1 cidx ;;
          line <- index lines i ;;
          num <- slice line (cidx + 1) idx ;;
          Stack_for fuel' lines (i + 1)
            (frames ++ [ {| Location := location; Call := call;
                            Lineno := fst (Atoi num) |} ])
      else Ok frames
  end.

Definition Stack (r : rpcStat) : result stack :=
  let lines := Split (StackData r) nl in
  if (len lines <? 7) || negb (Z.rem (len lines) 2 =? 0) then Ok []
  else
    lines <- slice_from lines 1 ;;
    lines <- slice_from lines 4 ;;
    Stack_for (List.length lines) lines 0 [].

(** The same loop as a recursion over the pairs of lines that are left. *)
Fixpoint Stack_loop (lines : list gostring) (frames : stack) : result stack :=
  match lines with
  | call :: loc :: rest =>
      let idx := LastIndex loc space in
      let cidx := LastIndex loc colon in
      if (idx =? -1) || (cidx =? -1) then Stack_loop rest frames
      else
        location <- slice loc 1 cidx ;;
        num <- slice loc (cidx + 1) idx ;;
        Stack_loop rest
          (frames ++ [ {| Location := location; Call := call;
                          Lineno := fst (Atoi num) |} ])
  | _ => Ok frames
  end.

(** ** Package [fmt]: the verb [%06d] *)

Definition digit_char (d : Z) : ascii := ascii_of_nat (Z.to_nat (48 + d)).

(** The loop [for u >= 10 { ... }] of [fmtInteger], writing the decimal
    digits of [u] right to left in front of [buf]; a uint64 has at most 20
    digits, which bounds the number of turns. *)
Fixpoint fmt_digits (fuel : nat) (u : Z) (buf : gostring) : gostring :=
  match fuel with
  | O => buf
  | S fuel' =>
      if 10 <=? u
      then let next := u / 10 in
           fmt_digits fuel' next (digit_char (u - next * 10) :: buf)
      else digit_char u :: buf
  end.

(** [fmtInteger] for a signed value under [%06d]: the zero flag turns the
    width into a precision (one less for a negative number, which leaves
    room for the sign), the digits are padded with zeros up to it, and the
    sign comes first. *)
Definition fmt_06d (v : Z) : gostring :=
  let negative := v <? 0 in
  let u := if negative then - v else v in
  let prec := if negative then 5%nat else 6%nat in
  let ds := fmt_digits 20 u [] in
  let padded := repeat "0"%char (prec - List.length ds) ++ ds in
  if negative then "-"%char :: padded else padded.

(** ** Request records and time buckets *)

Definition keyPrefix : gostring := str "__appstats__:".
(** [fmt.Sprintf(keyPart, t)] and [fmt.Sprintf(keyFull, t)]. *)
Definition keyPart (t : Z) : gostring := keyPrefix ++ fmt_06d t ++ str ":part".
Definition keyFull (t : Z) : gostring := keyPrefix ++ fmt_06d t ++ str ":full".
Definition distance : Z := 100.
Definition modulus : Z := 1000.

(** The fields [lock] and [wg] carry no data and are left out. *)
Record requestStats : Type := mk_requestStats {
  User : gostring;
  Admin : bool;
  Method : gostring;
  Path : gostring;
  Query : gostring;
  Status : Z;
  Cost : Z;
  Start : time.Time;
  Duration : time.Duration;
  RPCStats : list rpcStat
}.

(** Go's [/] and [%] on [int] truncate towards zero. *)
Definition roundTime (i : Z) : Z :=
  int_wrap (Z.rem (Z.quot (Z.quot i 1000) distance) modulus * distance).

Definition PartKey (r : requestStats) : gostring :=
  let t := roundTime (time.Nanosecond (Start r)) in
  keyPart t.

Definition FullKey (r : requestStats) : gostring :=
  let t := roundTime (time.Nanosecond (Start r)) in
  keyFull t.

(** ** Ordering *)

#[local] Unset Elimination Schemes.
Inductive statByName : Type := mk_statByName {
  sbn_Name : gostring;
  Count : Z;
  sbn_Cost : Z;
  SubStats : list (option statByName);
  Requests : Z;
  RecentReqs : list Z;
  RequestStats : option requestStats;
  sbn_Duration : time.Duration
}.
#[local] Set Elimination Schemes.

(** [sort.Interface]. [Less] and [Swap] index the slice and may panic;
    [Swap] returns the slice after the exchange. *)
Class Interface (A : Type) : Type := {
  Len : A -> Z;
  Less : A -> Z -> Z -> result bool;
  Swap : A -> Z -> Z -> result A
}.

Fixpoint set_nth {A : Type} (l : list A) (n : nat) (a : A) : list A :=
  match l, n with
  | [], _ => []
  | _ :: l', O => a :: l'
  | x :: l', S n' => x :: set_nth l' n' a
  end.

(** [s[i], s[j] = s[j], s[i]]. *)
Definition swap_elems {A : Type} (s : list A) (i j : Z) : result (list A) :=
  a <- index s j ;;
  b <- index s i ;;
  Ok (set_nth (set_nth s (Z.to_nat i) a) (Z.to_nat j) b).

Definition allrequestStats : Type := list (option requestStats).

#[export] Instance allrequestStats_Interface : Interface allrequestStats := {
  Len s := len s;
  Less s i j :=
    pi <- index s i ;;
    ri <- deref pi ;;
    pj <- index s j ;;
    rj <- deref pj ;;
    Ok (time.Sub (Start ri) (Start rj) <? 0);
  Swap s i j := swap_elems s i j
}.

Definition statsByName : Type := list (option statByName).

#[export] Instance statsByName_Interface : Interface statsByName := {
  Len s := len s;
  Less s i j :=
    pi <- index s i ;;
    ni <- deref pi ;;
    pj <- index s j ;;
    nj <- deref pj ;;
    Ok (Count ni <? Count nj);
  Swap s i j := swap_elems s i j
}.

(** [type reverse struct{ sort.Interface }]: [Len] and [Swap] are those of
    the embedded value, [Less] is redefined. *)
Record reverse (A : Type) : Type := mk_reverse { embedded : A }.

Arguments mk_reverse {A} _.
Arguments embedded {A} _.

#[export] Instance reverse_Interface {A : Type} `{Interface A} : Interface (reverse A) := {
  Len r := Len (embedded r);
  Less r i j := Less (embedded r) j i;
  Swap r i j := s <- Swap (embedded r) i j ;; Ok (mk_reverse s)
}.

(** [strings.Join(elems, sep)] for a one-byte separator, used to write
    traces down line by line. *)
Fixpoint Join (elems : list gostring) (sep : ascii) : gostring :=
  match elems with
  | [] => []
  | [e] => e
  | e :: rest => e ++ sep :: Join rest sep
  end.

(** The value of a string of decimal digits, read after a prefix of
    value [n]. *)
Definition decimal_from (n : Z) (ds : gostring) : Z :=
  fold_left (fun acc c => acc * 10 + digit_val c) ds n.

Definition decimal_value (ds : gostring) : Z := decimal_from 0 ds.

(** The strings [strconv] accepts as base-10 integers: an optional sign
    followed by one or more decimal digits. *)
Definition is_decimal (s : gostring) : bool :=
  match s with
  | [] => false
  | c :: s' =>
      let body := if Ascii.eqb c "+" || Ascii.eqb c "-" then s' else s in
      match body with
      | [] => false
      | _ => forallb is_digit body
      end
  end.

(** The string without its sign, and the run of digits a string starts
    with: what the digit loop of [ParseUint] reads before it can meet a byte
    that is no digit. *)
Definition unsigned_part (s : gostring) : gostring :=
  match s with
  | [] => []
  | c :: s' => if Ascii.eqb c "+" || Ascii.eqb c "-" then s' else s
  end.

Fixpoint leading_digits (s : gostring) : gostring :=
  match s with
  | c :: s' => if is_digit c then c :: leading_digits s' else []
  | [] => []
  end.

(** ** Sample values *)

Definition sample_time : time.Time := time.mkTime 63500000000 400000 eq_refl.
Definition sample_time_next_day : time.Time := time.mkTime 63500086400 400000 eq_refl.
Definition sample_time_later : time.Time := time.mkTime 63500000000 400001 eq_refl.

Definition request_at (path : string) (t : time.Time) : requestStats :=
  {| User := str "user@example.com"; Admin := false; Method := str "GET";
     Path := str path; Query := []; Status := 200; Cost := 0; Start := t;
     Duration := 0; RPCStats := [] |}.

Definition stat_with_count (name : string) (count : Z) : statByName :=
  {| sbn_Name := str name; Count := count; sbn_Cost := 0; SubStats := [];
     Requests := 0; RecentReqs := []; RequestStats := None; sbn_Duration := 0 |}.

Definition rpc_with_trace (trace : gostring) : rpcStat :=
  {| Service := str "datastore_v3"; rpc_Method := str "Get";
     rpc_Start := sample_time; Offset := 0; rpc_Duration := 0;
     StackData := trace; rpc_In := []; rpc_Out := []; rpc_Cost := 0 |}.

(** The header and the four lines of the two internal calls. *)
Definition sample_head : list gostring :=
  [ str "goroutine 7 [running]:";
    str "appstats.override(0x1, 0x2)";
    tab :: str "appstats/appstats.go:90 +0x2b";
    str "appengine.APICall(0x1, 0x2)";
    tab :: str "appengine/api.go:110 +0x4c" ].

Definition sample_location : gostring := tab :: str "foo/bar.go:42 +0x1a".

(** Eight lines: head, one frame pair and the empty line after the final
    line feed. *)
Definition trace_8 : gostring :=
  Join (sample_head ++ [str "main.handler(0x1)"; sample_location; []]) nl.

(** Seven lines: as [trace_8] without the final line feed. *)
Definition trace_7 : gostring :=
  Join (sample_head ++ [str "main.handler(0x1)"; sample_location]) nl.

(** Nine lines: head and two frame pairs, without final line feed. *)
Definition trace_9 : gostring :=
  Join (sample_head ++ [str "main.handler(0x1)"; sample_location;
                        str "main.main()"; tab :: str "foo/main.go:7 +0x20"]) nl.

(** Frame lines that are not of the shape [<indent><file>:<line> <pc>]. *)
Definition trace_colon_first : gostring :=
  Join (sample_head ++ [str "main.handler(0x1)"; str ":x y"; []]) nl.

Definition trace_space_before_colon : gostring :=
  Join (sample_head ++ [str "main.handler(0x1)";
                        tab :: str "/home/my user/bar.go:42"; []]) nl.

Definition trace_bad_number : gostring :=
  Join (sample_head ++ [str "main.handler(0x1)";
                        tab :: str "foo/bar.go:4x2 +0x1a"; []]) nl.

Definition trace_overlong_number : gostring :=
  Join (sample_head ++ [str "main.handler(0x1)";
                        tab :: str "foo/bar.go:99999999999999999999x +0x1a"; []]) nl.

(** A frame line that goes on after the program counter: the bytes between
    its last colon and its last space are [42 +0x1a fp=... sp=...]. *)
Definition long_location : gostring :=
  tab :: str "foo/bar.go:42 +0x1a fp=0xc00003e758 sp=0xc00003e6f0 pc=0x45f2a1".

Definition trace_long_bad_number : gostring :=
  Join (sample_head ++ [str "main.handler(0x1)"; long_location; []]) nl.

(** ** Notions used to state further properties *)

(** The second lines of the complete pairs of [lines]: the lines the loop
    of [Stack] takes apart. *)
Fixpoint location_lines (lines : list gostring) : list gostring :=
  match lines with
  | _ :: loc :: rest => loc :: location_lines rest
  | _ => []
  end.

(** The line holds a space and a colon, so that the loop does not pass it
    over. *)
Definition has_delimiters (loc : gostring) : bool :=
  negb ((LastIndex loc space =? -1) || (LastIndex loc colon =? -1)).

(** The two slice expressions of the loop are in range on the line. *)
Definition slices_in_range (loc : gostring) : bool :=
  (1 <=? LastIndex loc colon) && (LastIndex loc colon <? LastIndex loc space).

Definition line_ok (loc : gostring) : bool :=
  negb (has_delimiters loc) || slices_in_range loc.

(** The frame read off a pair: the bytes from index 1 up to the last colon,
    the call line, and the number between the last colon and the last
    space. *)
Definition frame_of (call loc : gostring) : frame :=
  let idx := LastIndex loc space in
  let cidx := LastIndex loc colon in
  {| Location := firstn (Z.to_nat (cidx - 1)) (skipn 1 loc);
     Call := call;
     Lineno := fst (Atoi (firstn (Z.to_nat (idx - (cidx + 1)))
                                 (skipn (Z.to_nat (cidx + 1)) loc))) |}.

(** The frames of a list of lines, pair by pair, without the loop. *)
Fixpoint frames_of (lines : list gostring) : stack :=
  match lines with
  | call :: loc :: rest =>
      (if has_delimiters loc then [frame_of call loc] else [])
      ++ frames_of rest
  | _ => []
  end.

(** A frame pair as the runtime prints it: the call, then
    [<indent><file>:<digits> <rest>]. *)
Record frame_pair : Type := mk_frame_pair {
  fp_call : gostring;
  fp_indent : ascii;
  fp_file : gostring;
  fp_digits : gostring;
  fp_rest : gostring
}.

Definition fp_lines (p : frame_pair) : list gostring :=
  [ fp_call p;
    fp_indent p :: fp_file p ++ colon :: fp_digits p ++ space :: fp_rest p ].

Definition fp_wf (p : frame_pair) : bool :=
  (0 <? len (fp_digits p)) && forallb is_digit (fp_digits p)
  && (decimal_value (fp_digits p) <=? maxInt)
  && (LastIndex (fp_rest p) space =? -1)
  && (LastIndex (fp_rest p) colon =? -1).

Definition fp_frame (p : frame_pair) : frame :=
  {| Location := fp_file p; Call := fp_call p;
     Lineno := decimal_value (fp_digits p) |}.

(** The lines of the trace, whether [Stack] takes the trace up at all, and
    the lines it then runs its loop on. *)
Definition trace_lines (r : rpcStat) : list gostring :=
  Split (StackData r) nl.

Definition usable (r : rpcStat) : bool :=
  (7 <=? len (trace_lines r)) && Z.even (len (trace_lines r)).

Definition frame_lines (r : rpcStat) : list gostring :=
  skipn 5 (trace_lines r).

Definition sample_pairs : list frame_pair :=
  [ {| fp_call := str "main.handler(0x1)"; fp_indent := tab;
       fp_file := str "foo/bar.go"; fp_digits := str "42";
       fp_rest := str "+0x1a" |};
    {| fp_call := str "main.main()"; fp_indent := tab;
       fp_file := str "foo/main.go"; fp_digits := str "7";
       fp_rest := str "+0x20" |} ].

Definition trace_two_pairs : gostring :=
  Join (sample_head ++ flat_map fp_lines sample_pairs ++ [[]]) nl.

(** A location line without program counter has no space. *)
Definition trace_with_skipped_pair : gostring :=
  Join (sample_head ++ [str "main.handler(0x1)"; tab :: str "foo/bar.go:42";
                        str "main.main()"; tab :: str "foo/main.go:7 +0x20";
                        []]) nl.

Definition trace_without_skipped_pair : gostring :=
  Join (sample_head ++ [str "main.main()"; tab :: str "foo/main.go:7 +0x20";
                        []]) nl.

(** As [trace_8] under another header, other internal lines and another
    closing line. *)
Definition trace_8_other_head : gostring :=
  Join ([str "goroutine 99 [runnable]:"; str "a"; str "b"; str "c"; str "d";
         str "main.handler(0x1)"; sample_location; str "exit status 2"]) nl.

Definition sample_requests : allrequestStats :=
  [ Some (request_at "/" sample_time_next_day);
    Some (request_at "/a" sample_time_later);
    Some (request_at "/b" sample_time) ].

Definition sample_stats : statsByName :=
  [ Some (stat_with_count "A.x" 2); Some (stat_with_count "B.y" 1);
    Some (stat_with_count "C.z" 2) ].

(** * Properties *)

(** ** Lengths, slices and indices *)

Lemma len_nonneg {A : Type} (l : list A) : 0 <= len l.
Proof. unfold len. lia. Qed.

Lemma len_cons {A : Type} (a : A) (l : list A) : len (a :: l) = len l + 1.
Proof. unfold len. cbn [List.length]. lia. Qed.

Lemma len_app {A : Type} (l l' : list A) : len (l ++ l') = len l + len l'.
Proof. unfold len. rewrite length_app. lia. Qed.

Lemma slice_middle (a b c : gostring) :
  slice (a ++ b ++ c) (len a) (len a + len b) = Ok b.
Proof.
  unfold slice.
  assert (Hle : (0 <=? len a) && (len a <=? len a + len b)
                && (len a + len b <=? len (a ++ b ++ c)) = true).
  { rewrite !len_app.
    pose proof (len_nonneg a); pose proof (len_nonneg b); pose proof (len_nonneg c).
    rewrite !andb_true_iff, !Z.leb_le. lia. }
  rewrite Hle. f_equal.
  replace (Z.to_nat (len a)) with (List.length a) by (unfold len; lia).
  replace (Z.to_nat (len a + len b - len a)) with (List.length b)
    by (unfold len; lia).
  rewrite skipn_app, skipn_all, Nat.sub_diag. cbn [skipn app].
  rewrite firstn_app, firstn_all, Nat.sub_diag. cbn [firstn].
  rewrite app_nil_r. reflexivity.
Qed.

Lemma slice_panics (s : gostring) (lo hi : Z) :
  hi < lo -> slice s lo hi = Panic SliceBoundsOutOfRange.
Proof.
  intros H. unfold slice.
  destruct (0 <=? lo); cbn [andb]; [|reflexivity].
  destruct (Z.leb_spec lo hi); [lia|reflexivity].
Qed.

(** ** [strings.LastIndex] *)

Lemma LastIndex_range (s : gostring) (c : ascii) :
  -1 <= LastIndex s c < len s.
Proof.
  induction s as [|x s IH]; cbn [LastIndex].
  - unfold len. cbn. lia.
  - rewrite len_cons. destruct (Z.eqb_spec (LastIndex s c) (-1)).
    + pose proof (len_nonneg s). destruct (Ascii.eqb x c); lia.
    + lia.
Qed.

Lemma LastIndex_absent (s : gostring) (c : ascii) :
  ~ In c s -> LastIndex s c = -1.
Proof.
  induction s as [|x s IH]; intros Hn; cbn [LastIndex]; [reflexivity|].
  rewrite IH by (intros Hin; apply Hn; right; exact Hin).
  cbn. destruct (Ascii.eqb_spec x c) as [->|]; [|reflexivity].
  exfalso. apply Hn. left. reflexivity.
Qed.

Lemma LastIndex_last (pre post : gostring) (c : ascii) :
  ~ In c post -> LastIndex (pre ++ c :: post) c = len pre.
Proof.
  intros Hn. induction pre as [|x pre IH]; cbn [app LastIndex].
  - rewrite (LastIndex_absent post c Hn). cbn. rewrite Ascii.eqb_refl. reflexivity.
  - rewrite IH, len_cons. pose proof (len_nonneg pre).
    destruct (Z.eqb_spec (len pre) (-1)); [lia|reflexivity].
Qed.

Lemma LastIndex_absent_inv (s : gostring) (c : ascii) :
  LastIndex s c = -1 -> ~ In c s.
Proof.
  induction s as [|x s IH]; cbn [LastIndex In]; [tauto|].
  pose proof (LastIndex_range s c) as Hr.
  destruct (Z.eqb_spec (LastIndex s c) (-1)) as [E|E]; [|lia].
  destruct (Ascii.eqb_spec x c) as [->|Hne]; [discriminate|].
  intros _ [H|H]; [exact (Hne H)|exact (IH E H)].
Qed.

(** ** [strconv.Atoi] *)

Lemma digit_val_range (c : ascii) :
  is_digit c = true -> 0 <= digit_val c <= 9.
Proof.
  unfold is_digit, digit_val. rewrite andb_true_iff, !Z.leb_le. lia.
Qed.

Lemma digit_not_sign (c : ascii) :
  is_digit c = true -> Ascii.eqb c "+" = false /\ Ascii.eqb c "-" = false.
Proof.
  intros H. split.
  - destruct (Ascii.eqb_spec c "+") as [->|]; [discriminate H|reflexivity].
  - destruct (Ascii.eqb_spec c "-") as [->|]; [discriminate H|reflexivity].
Qed.

Lemma decimal_from_ge (ds : gostring) (n : Z) :
  forallb is_digit ds = true -> 0 <= n -> n <= decimal_from n ds.
Proof.
  revert n. induction ds as [|c ds IH]; intros n Hd Hn; cbn in *; [lia|].
  apply andb_true_iff in Hd as [Hc Hd]. apply digit_val_range in Hc.
  specialize (IH (n * 10 + digit_val c) Hd). unfold decimal_from in IH. lia.
Qed.

Lemma ParseUint_loop_digits (ds : gostring) (n : Z) :
  forallb is_digit ds = true -> 0 <= n -> decimal_from n ds <= maxUint64 ->
  ParseUint_loop ds n = (decimal_from n ds, None).
Proof.
  revert n. induction ds as [|c ds IH]; intros n Hd Hn Hmax; [reflexivity|].
  cbn [forallb] in Hd. apply andb_true_iff in Hd as [Hc Hd].
  pose proof (digit_val_range c Hc) as Hv.
  assert (Hge : n * 10 + digit_val c <= decimal_from (n * 10 + digit_val c) ds)
    by (apply decimal_from_ge; [exact Hd|lia]).
  change (decimal_from n (c :: ds)) with (decimal_from (n * 10 + digit_val c) ds) in *.
  cbn [ParseUint_loop]. rewrite Hc.
  unfold maxUint64 in *. change (2 ^ 64 - 1) with 18446744073709551615 in *.
  change (18446744073709551615 / 10 + 1) with 1844674407370955162.
  destruct (Z.leb_spec 1844674407370955162 n); [lia|].
  change (2 ^ 64) with 18446744073709551616.
  rewrite Z.mod_small by lia.
  destruct (Z.ltb_spec (n * 10 + digit_val c) (n * 10)); [lia|].
  destruct (Z.ltb_spec 18446744073709551615 (n * 10 + digit_val c)); [lia|].
  cbn [orb]. apply IH; [exact Hd|lia|exact Hmax].
Qed.

Lemma int_wrap_small (z : Z) : minInt <= z <= maxInt -> int_wrap z = z.
Proof.
  unfold int_wrap, minInt, maxInt, intSize.
  change (2 ^ (64 - 1)) with 9223372036854775808.
  change (2 ^ 64) with 18446744073709551616.
  intros H. rewrite Z.mod_small by lia. lia.
Qed.

(** A non-empty string of digits whose value fits an [int] is parsed to
    that value. *)
Lemma Atoi_digits (ds : gostring) :
  ds <> [] -> forallb is_digit ds = true -> decimal_value ds <= maxInt ->
  Atoi ds = (decimal_value ds, None).
Proof.
  intros Hne Hd Hmax. destruct ds as [|c ds]; [congruence|].
  assert (Hc : is_digit c = true) by (cbn in Hd; apply andb_true_iff in Hd; tauto).
  destruct (digit_not_sign c Hc) as [Hp Hm].
  pose proof (decimal_from_ge (c :: ds) 0 Hd (Z.le_refl 0)) as Hpos.
  fold (decimal_value (c :: ds)) in Hpos.
  unfold Atoi, ParseInt. rewrite Hp, Hm. cbn [orb negb andb].
  unfold ParseUint.
  rewrite (ParseUint_loop_digits (c :: ds) 0 Hd (Z.le_refl 0)).
  - fold (decimal_value (c :: ds)).
    unfold maxInt, intSize in *. change (2 ^ (64 - 1)) with 9223372036854775808 in *.
    destruct (Z.leb_spec 9223372036854775808 (decimal_value (c :: ds))); [lia|].
    rewrite int_wrap_small; [reflexivity|].
    unfold minInt, maxInt, intSize. change (2 ^ (64 - 1)) with 9223372036854775808. lia.
  - fold (decimal_value (c :: ds)). unfold maxInt, intSize, maxUint64 in *.
    change (2 ^ (64 - 1)) with 9223372036854775808 in *.
    change (2 ^ 64) with 18446744073709551616. lia.
Qed.

(** A byte that is no digit is reached before the accumulator can leave
    uint64 when at most 19 digits precede it. *)
Lemma ParseUint_loop_syntax (s : gostring) (n : Z) (k : nat) :
  forallb is_digit s = false -> 0 <= n < 10 ^ Z.of_nat k ->
  (k + List.length s <= 20)%nat ->
  ParseUint_loop s n = (0, Some ErrSyntax).
Proof.
  revert n k. induction s as [|c s IH]; intros n k Hd Hn Hk; [discriminate Hd|].
  cbn [forallb] in Hd. cbn [ParseUint_loop].
  destruct (is_digit c) eqn:Hc; [|reflexivity].
  cbn [andb] in Hd. destruct s as [|c' s']; [discriminate Hd|].
  cbn [List.length] in Hk.
  pose proof (digit_val_range c Hc) as Hv.
  assert (H18 : 10 ^ Z.of_nat k <= 10 ^ 18)
    by (apply Z.pow_le_mono_r; lia).
  change (10 ^ 18) with 1000000000000000000 in H18.
  unfold maxUint64. change (2 ^ 64 - 1) with 18446744073709551615.
  change (18446744073709551615 / 10 + 1) with 1844674407370955162.
  destruct (Z.leb_spec 1844674407370955162 n); [lia|].
  change (2 ^ 64) with 18446744073709551616.
  rewrite Z.mod_small by lia.
  destruct (Z.ltb_spec (n * 10 + digit_val c) (n * 10)); [lia|].
  destruct (Z.ltb_spec 18446744073709551615 (n * 10 + digit_val c)); [lia|].
  cbn [orb]. apply (IH _ (S k)); [exact Hd| |cbn [List.length]; lia].
  rewrite Nat2Z.inj_succ, Z.pow_succ_r by lia. lia.
Qed.

(** A string that is no decimal integer and has at most 20 bytes is
    answered with the value 0 and a syntax error. *)
Lemma Atoi_syntax_error (s : gostring) :
  is_decimal s = false -> len s <= 20 -> Atoi s = (0, Some ErrSyntax).
Proof.
  intros Hd Hl. destruct s as [|c s]; [reflexivity|].
  rewrite len_cons in Hl. unfold len in Hl.
  unfold Atoi, ParseInt. unfold is_decimal in Hd.
  assert (Hbody : forall body, (List.length body <= 20)%nat ->
            match body with [] => false | _ => forallb is_digit body end = false ->
            ParseUint body = (0, Some ErrSyntax)).
  { intros body Hb Hf. destruct body as [|b body]; [reflexivity|].
    unfold ParseUint. apply (ParseUint_loop_syntax _ 0 0); [exact Hf|cbn; lia|lia]. }
  destruct (Ascii.eqb c "-") eqn:Hm; destruct (Ascii.eqb c "+") eqn:Hp;
    cbn [orb] in *; rewrite Hbody; try reflexivity; try exact Hd;
    cbn [List.length]; lia.
Qed.

Lemma leading_digits_are_digits (s : gostring) :
  forallb is_digit (leading_digits s) = true.
Proof.
  induction s as [|c s IH]; [reflexivity|]. cbn [leading_digits].
  destruct (is_digit c) eqn:Hc; [|reflexivity].
  cbn [forallb]. rewrite Hc, IH. reflexivity.
Qed.

(** The digit loop ends in a syntax error at the first byte that is no
    digit, provided the digits before it stay inside uint64. *)
Lemma ParseUint_loop_bad_byte (s : gostring) (n : Z) :
  forallb is_digit s = false -> 0 <= n ->
  decimal_from n (leading_digits s) <= maxUint64 ->
  ParseUint_loop s n = (0, Some ErrSyntax).
Proof.
  revert n. induction s as [|c s IH]; intros n Hd Hn Hmax; [discriminate Hd|].
  cbn [forallb] in Hd. cbn [ParseUint_loop leading_digits] in *.
  destruct (is_digit c) eqn:Hc; [|reflexivity]. cbn [andb] in Hd.
  pose proof (digit_val_range c Hc) as Hv.
  change (decimal_from n (c :: leading_digits s))
    with (decimal_from (n * 10 + digit_val c) (leading_digits s)) in Hmax.
  assert (Hge : n * 10 + digit_val c
                <= decimal_from (n * 10 + digit_val c) (leading_digits s))
    by (apply decimal_from_ge; [apply leading_digits_are_digits|lia]).
  unfold maxUint64 in *. change (2 ^ 64 - 1) with 18446744073709551615 in *.
  change (18446744073709551615 / 10 + 1) with 1844674407370955162.
  destruct (Z.leb_spec 1844674407370955162 n); [lia|].
  change (2 ^ 64) with 18446744073709551616.
  rewrite Z.mod_small by lia.
  destruct (Z.ltb_spec (n * 10 + digit_val c) (n * 10)); [lia|].
  destruct (Z.ltb_spec 18446744073709551615 (n * 10 + digit_val c)); [lia|].
  cbn [orb]. apply IH; [exact Hd|lia|exact Hmax].
Qed.

(** A string that is no decimal integer is answered with the value 0 and a
    syntax error whenever the digits it starts with, after an optional sign,
    stay inside uint64. *)
Lemma Atoi_bad_byte (s : gostring) :
  is_decimal s = false ->
  decimal_value (leading_digits (unsigned_part s)) <= maxUint64 ->
  Atoi s = (0, Some ErrSyntax).
Proof.
  intros Hd Hmax. destruct s as [|c s]; [reflexivity|].
  unfold Atoi, ParseInt. unfold is_decimal in Hd. unfold unsigned_part in Hmax.
  assert (Hbody : forall body,
            match body with [] => false | _ => forallb is_digit body end = false ->
            decimal_value (leading_digits body) <= maxUint64 ->
            ParseUint body = (0, Some ErrSyntax)).
  { intros body Hf Hb. destruct body as [|b body]; [reflexivity|].
    unfold ParseUint. apply ParseUint_loop_bad_byte; [exact Hf|lia|exact Hb]. }
  destruct (Ascii.eqb c "-") eqn:Hm; destruct (Ascii.eqb c "+") eqn:Hp;
    cbn [orb] in *; rewrite Hbody; try reflexivity; assumption.
Qed.

(** Fewer than 20 leading digits always stay inside uint64. *)
Lemma decimal_from_bound (ds : gostring) (n : Z) :
  forallb is_digit ds = true -> 0 <= n ->
  decimal_from n ds < (n + 1) * 10 ^ len ds.
Proof.
  revert n. induction ds as [|c ds IH]; intros n Hd Hn.
  - cbn. lia.
  - cbn [forallb] in Hd. apply andb_true_iff in Hd as [Hc Hd].
    pose proof (digit_val_range c Hc) as Hv.
    change (decimal_from n (c :: ds)) with (decimal_from (n * 10 + digit_val c) ds).
    specialize (IH (n * 10 + digit_val c) Hd ltac:(lia)).
    rewrite len_cons, Z.pow_add_r by (try lia; apply len_nonneg).
    pose proof (Z.pow_pos_nonneg 10 (len ds) ltac:(lia) (len_nonneg ds)). nia.
Qed.

Lemma short_leading_digits (s : gostring) :
  len (leading_digits s) < 20 -> decimal_value (leading_digits s) <= maxUint64.
Proof.
  intros Hl.
  pose proof (decimal_from_bound (leading_digits s) 0
                (leading_digits_are_digits s) (Z.le_refl 0)) as Hb.
  assert (Hp : 10 ^ len (leading_digits s) <= 10 ^ 19)
    by (apply Z.pow_le_mono_r; lia).
  fold (decimal_value (leading_digits s)) in Hb.
  unfold maxUint64. change (2 ^ 64 - 1) with 18446744073709551615.
  change (10 ^ 19) with 10000000000000000000 in Hp. lia.
Qed.

(** Leading digits that leave uint64 end the digit loop in a range error,
    whatever follows them. *)
Lemma ParseUint_loop_overflow (ds rest : gostring) (n : Z) :
  forallb is_digit ds = true -> 0 <= n <= maxUint64 ->
  maxUint64 < decimal_from n ds ->
  ParseUint_loop (ds ++ rest) n = (maxUint64, Some ErrRange).
Proof.
  revert n. induction ds as [|c ds IH]; intros n Hd Hn Hover.
  - unfold decimal_from in Hover. cbn [fold_left] in Hover. lia.
  - cbn [forallb] in Hd. apply andb_true_iff in Hd as [Hc Hd].
    pose proof (digit_val_range c Hc) as Hv.
    change (decimal_from n (c :: ds))
      with (decimal_from (n * 10 + digit_val c) ds) in Hover.
    cbn [app ParseUint_loop]. rewrite Hc.
    destruct (Z.leb_spec (maxUint64 / 10 + 1) n) as [Hcut|Hcut]; [reflexivity|].
    unfold maxUint64 in *. change (2 ^ 64 - 1) with 18446744073709551615 in *.
    change (18446744073709551615 / 10 + 1) with 1844674407370955162 in Hcut.
    change (2 ^ 64) with 18446744073709551616.
    destruct (Z_lt_le_dec 18446744073709551615 (n * 10 + digit_val c)) as [Hbig|Hsmall].
    + replace ((n * 10 + digit_val c) mod 18446744073709551616)
        with (n * 10 + digit_val c - 18446744073709551616).
      * destruct (Z.ltb_spec (n * 10 + digit_val c - 18446744073709551616) (n * 10));
          [reflexivity|lia].
      * apply Zmod_unique with (q := 1); lia.
    + rewrite Z.mod_small by lia.
      destruct (Z.ltb_spec (n * 10 + digit_val c) (n * 10)); [lia|].
      destruct (Z.ltb_spec 18446744073709551615 (n * 10 + digit_val c)); [lia|].
      cbn [orb]. apply IH; [exact Hd|lia|exact Hover].
Qed.

Lemma leading_digits_prefix (s : gostring) :
  exists rest, s = leading_digits s ++ rest.
Proof.
  induction s as [|c s [rest IH]]; [exists []; reflexivity|].
  cbn [leading_digits]. destruct (is_digit c).
  - exists rest. cbn [app]. rewrite <- IH. reflexivity.
  - exists (c :: s). reflexivity.
Qed.

(** Conversely, when the leading digits leave uint64, [Atoi] answers with a
    range error and the largest or the smallest [int], never with 0. *)
Lemma Atoi_overflow (s : gostring) :
  maxUint64 < decimal_value (leading_digits (unsigned_part s)) ->
  Atoi s = (maxInt, Some ErrRange) \/ Atoi s = (minInt, Some ErrRange).
Proof.
  intros Hover. destruct s as [|c s]; [cbn in Hover; discriminate Hover|].
  unfold Atoi, ParseInt. unfold unsigned_part in Hover.
  assert (Hbody : forall body,
            maxUint64 < decimal_value (leading_digits body) ->
            ParseUint body = (maxUint64, Some ErrRange)).
  { intros body Hb. destruct (leading_digits_prefix body) as [rest E].
    destruct body as [|b body]; [cbn in Hb; discriminate Hb|].
    unfold ParseUint. rewrite E.
    apply ParseUint_loop_overflow;
      [apply leading_digits_are_digits|vm_compute; split; discriminate|exact Hb]. }
  destruct (Ascii.eqb c "-") eqn:Hm; destruct (Ascii.eqb c "+") eqn:Hp;
    cbn [orb] in *; rewrite (Hbody _ Hover); [right|right|left|left]; reflexivity.
Qed.

(** ** The frame loop *)

(** One turn of the loop on a location line whose last colon is not its
    first byte and comes before its last space. *)
Lemma Stack_loop_frame (call loc : gostring) (rest : list gostring)
    (frames : stack) :
  1 <= LastIndex loc colon -> LastIndex loc colon < LastIndex loc space ->
  exists location num,
    slice loc 1 (LastIndex loc colon) = Ok location /\
    slice loc (LastIndex loc colon + 1) (LastIndex loc space) = Ok num /\
    Stack_loop (call :: loc :: rest) frames =
    Stack_loop rest (frames ++ [ {| Location := location; Call := call;
                                    Lineno := fst (Atoi num) |} ]).
Proof.
  intros Hc Hi. pose proof (LastIndex_range loc space) as Hr.
  cbn [Stack_loop].
  destruct (Z.eqb_spec (LastIndex loc space) (-1)); [lia|].
  destruct (Z.eqb_spec (LastIndex loc colon) (-1)); [lia|]. cbn [orb].
  unfold slice.
  assert (H1 : (0 <=? 1) && (1 <=? LastIndex loc colon)
               && (LastIndex loc colon <=? len loc) = true)
    by (rewrite !andb_true_iff, !Z.leb_le; lia).
  assert (H2 : (0 <=? LastIndex loc colon + 1)
               && (LastIndex loc colon + 1 <=? LastIndex loc space)
               && (LastIndex loc space <=? len loc) = true)
    by (rewrite !andb_true_iff, !Z.leb_le; lia).
  rewrite H1, H2. cbn [bind]. eauto.
Qed.

(** A location line without space or without colon is passed over. *)
Lemma Stack_loop_skip (call loc : gostring) (rest : list gostring)
    (frames : stack) :
  LastIndex loc space = -1 \/ LastIndex loc colon = -1 ->
  Stack_loop (call :: loc :: rest) frames = Stack_loop rest frames.
Proof.
  intros H. cbn [Stack_loop].
  destruct (Z.eqb_spec (LastIndex loc space) (-1));
    destruct (Z.eqb_spec (LastIndex loc colon) (-1)); cbn [orb]; try reflexivity.
  destruct H; contradiction.
Qed.

(** The two shapes of location line on which the loop panics. *)
Lemma Stack_loop_panics_colon_first (call loc : gostring)
    (rest : list gostring) (frames : stack) :
  LastIndex loc colon = 0 -> LastIndex loc space <> -1 ->
  Stack_loop (call :: loc :: rest) frames = Panic SliceBoundsOutOfRange.
Proof.
  intros Hc Hs. cbn [Stack_loop]. rewrite Hc.
  destruct (Z.eqb_spec (LastIndex loc space) (-1)); [contradiction|].
  cbn [orb Z.eqb]. rewrite slice_panics by lia. reflexivity.
Qed.

Lemma Stack_loop_panics_space_before_colon (call loc : gostring)
    (rest : list gostring) (frames : stack) :
  LastIndex loc space <> -1 -> LastIndex loc space < LastIndex loc colon ->
  Stack_loop (call :: loc :: rest) frames = Panic SliceBoundsOutOfRange.
Proof.
  intros Hs Hlt. pose proof (LastIndex_range loc space) as Hr.
  pose proof (LastIndex_range loc colon) as Hr'.
  cbn [Stack_loop].
  destruct (Z.eqb_spec (LastIndex loc space) (-1)); [contradiction|].
  destruct (Z.eqb_spec (LastIndex loc colon) (-1)); [lia|]. cbn [orb].
  destruct (slice loc 1 (LastIndex loc colon)) as [location|p] eqn:E; cbn [bind].
  - rewrite slice_panics by lia. reflexivity.
  - unfold slice in E.
    destruct ((0 <=? 1) && (1 <=? LastIndex loc colon)
              && (LastIndex loc colon <=? len loc)); congruence.
Qed.

Lemma Stack_loop_app (pre rest : list gostring) (frames : stack) :
  Nat.Even (List.length pre) ->
  Stack_loop (pre ++ rest) frames =
  bind (Stack_loop pre frames) (fun fs => Stack_loop rest fs).
Proof.
  intros [m Hm]. revert pre frames Hm.
  induction m as [|m IH]; intros pre frames Hm.
  - destruct pre; [|discriminate Hm]. cbn [app Stack_loop bind].
    destruct rest as [|? [|? ?]]; reflexivity.
  - destruct pre as [|call [|loc pre]]; cbn [List.length] in Hm; try lia.
    cbn [app Stack_loop].
    destruct ((LastIndex loc space =? -1) || (LastIndex loc colon =? -1)).
    + apply IH. lia.
    + destruct (slice loc 1 (LastIndex loc colon)); cbn [bind]; [|reflexivity].
      destruct (slice loc (LastIndex loc colon + 1) (LastIndex loc space));
        cbn [bind]; [|reflexivity].
      apply IH. lia.
Qed.

(** Frames are only ever appended. *)
Lemma Stack_loop_extends (lines : list gostring) (frames out : stack) :
  Stack_loop lines frames = Ok out -> exists more, out = frames ++ more.
Proof.
  remember (List.length lines) as n eqn:Hn.
  revert lines frames Hn. induction n as [n IH] using lt_wf_ind.
  intros lines frames Hn H.
  destruct lines as [|call [|loc rest]]; cbn [Stack_loop] in H.
  - exists []. rewrite app_nil_r. congruence.
  - exists []. rewrite app_nil_r. congruence.
  - cbn [List.length] in Hn.
    destruct ((LastIndex loc space =? -1) || (LastIndex loc colon =? -1)).
    + apply (IH (List.length rest)) in H; [exact H|lia|reflexivity].
    + destruct (slice loc 1 (LastIndex loc colon)); cbn [bind] in H;
        [|discriminate H].
      destruct (slice loc (LastIndex loc colon + 1) (LastIndex loc space));
        cbn [bind] in H; [|discriminate H].
      apply (IH (List.length rest)) in H; [|lia|reflexivity].
      destruct H as [more ->]. rewrite <- app_assoc. eauto.
Qed.

Lemma index_middle {A : Type} (pre rest : list A) (x : A) :
  index (pre ++ x :: rest) (len pre) = Ok x.
Proof.
  unfold index. pose proof (len_nonneg pre) as Hp.
  rewrite len_app, len_cons. pose proof (len_nonneg rest) as Hr.
  destruct (Z.leb_spec 0 (len pre)); [|lia].
  destruct (Z.ltb_spec (len pre) (len pre + (len rest + 1))); [|lia].
  cbn [andb]. replace (Z.to_nat (len pre)) with (List.length pre)
    by (unfold len; lia).
  rewrite nth_error_app2, Nat.sub_diag by lia. reflexivity.
Qed.

(** With enough fuel the loop of [Stack], started after the lines [pre], is
    the recursion over the remaining lines. *)
Lemma Stack_for_loop (fuel : nat) (pre rest : list gostring) (frames : stack) :
  (List.length rest <= 2 * fuel + 1)%nat ->
  Stack_for fuel (pre ++ rest) (len pre) frames = Stack_loop rest frames.
Proof.
  revert pre rest frames.
  induction fuel as [|fuel IH]; intros pre rest frames Hf.
  - destruct rest as [|? [|? ?]]; cbn [List.length] in Hf; try lia; reflexivity.
  - cbn [Stack_for]. rewrite len_app.
    destruct rest as [|call [|loc rest]].
    + match goal with |- context [?a <? ?b] => destruct (Z.ltb_spec a b) as [Hlt|_] end;
        [unfold len in Hlt; cbn [List.length] in Hlt; lia|reflexivity].
    + match goal with |- context [?a <? ?b] => destruct (Z.ltb_spec a b) as [Hlt|_] end;
        [unfold len in Hlt; cbn [List.length] in Hlt; lia|reflexivity].
    + rewrite !len_cons. pose proof (len_nonneg rest) as Hr.
      destruct (Z.ltb_spec (len pre + 1) (len pre + (len rest + 1 + 1))); [|lia].
      rewrite index_middle. cbn [bind].
      assert (Hloc : index (pre ++ call :: loc :: rest) (len pre + 1) = Ok loc).
      { replace (pre ++ call :: loc :: rest) with ((pre ++ [call]) ++ loc :: rest)
          by (rewrite <- app_assoc; reflexivity).
        replace (len pre + 1) with (len (pre ++ [call]))
          by (rewrite len_app; reflexivity).
        apply index_middle. }
      rewrite Hloc. cbn [bind Stack_loop].
      assert (Hnext : forall fs,
                Stack_for fuel (pre ++ call :: loc :: rest) (len pre + 1 + 1) fs
                = Stack_loop rest fs).
      { intros fs.
        replace (pre ++ call :: loc :: rest) with ((pre ++ [call; loc]) ++ rest)
          by (rewrite <- app_assoc; reflexivity).
        replace (len pre + 1 + 1) with (len (pre ++ [call; loc]))
          by (rewrite len_app; unfold len; cbn [List.length]; lia).
        apply IH. cbn [List.length] in Hf. lia. }
      destruct ((LastIndex loc space =? -1) || (LastIndex loc colon =? -1));
        [apply Hnext|].
      destruct (slice loc 1 (LastIndex loc colon)); cbn [bind]; [|reflexivity].
      destruct (slice loc (LastIndex loc colon + 1) (LastIndex loc space));
        cbn [bind]; [|reflexivity].
      apply Hnext.
Qed.

(** ** [Stack] *)

(** After the guard, [Stack] runs the loop on the lines that follow the
    first five. *)
Lemma Stack_of_lines (r : rpcStat) (hdr body : list gostring) :
  Split (StackData r) nl = hdr ++ body ->
  List.length hdr = 5%nat -> Nat.Odd (List.length body) ->
  Stack r = Stack_loop body [].
Proof.
  intros HS Hh [m Hm]. unfold Stack. rewrite HS.
  destruct hdr as [|h0 [|h1 [|h2 [|h3 [|h4 [|? ?]]]]]]; try discriminate Hh.
  cbn [app].
  assert (Hlen : len (h0 :: h1 :: h2 :: h3 :: h4 :: body) = (Z.of_nat m + 3) * 2)
    by (unfold len; cbn [List.length]; lia).
  rewrite Hlen, Z.rem_mul by lia. cbn [Z.eqb negb].
  destruct (Z.ltb_spec ((Z.of_nat m + 3) * 2) 7) as [Hlt|Hge]; cbn [orb].
  - destruct body as [|b [|? ?]]; cbn [List.length] in Hm; try lia. reflexivity.
  - rewrite <- (Stack_for_loop (List.length body) [] body []) by lia.
    unfold slice_from. rewrite Hlen.
    destruct (Z.leb_spec 1 ((Z.of_nat m + 3) * 2)); [|lia].
    cbn [Z.leb andb bind]. change (Z.to_nat 1) with 1%nat. cbn [skipn].
    assert (H4 : (4 <=? len (h1 :: h2 :: h3 :: h4 :: body)) = true)
      by (apply Z.leb_le; rewrite !len_cons; pose proof (len_nonneg body); lia).
    change (0 <=? 1) with true. cbn [andb bind].
    change (0 <=? 4) with true. rewrite H4. reflexivity.
Qed.

(** C5. A trace of fewer than 7 lines, or of an odd number of lines (7 or
    more included), has the empty stack. *)
Theorem Stack_short_or_odd_is_empty (r : rpcStat) :
  len (Split (StackData r) nl) < 7 \/ Z.odd (len (Split (StackData r) nl)) = true ->
  Stack r = Ok [].
Proof.
  intros H. unfold Stack.
  destruct (Z.ltb_spec (len (Split (StackData r) nl)) 7) as [Hlt|Hge];
    [reflexivity|].
  destruct H as [H|H]; [lia|].
  rewrite Z.rem_mod_nonneg, Zmod_odd, H by lia. reflexivity.
Qed.

Lemma Stack_short_or_odd_witness :
  (len (Split (StackData (rpc_with_trace trace_9)) nl) = 9 /\
   Stack (rpc_with_trace trace_9) = Ok []) /\
  (len (Split (StackData (rpc_with_trace (str "goroutine 7 [running]:"))) nl) = 1 /\
   Stack (rpc_with_trace (str "goroutine 7 [running]:")) = Ok []).
Proof.
  split; (split; [reflexivity|]).
  - apply Stack_short_or_odd_is_empty. right. reflexivity.
  - apply Stack_short_or_odd_is_empty. left. reflexivity.
Defined.

(** C1, as stated, fails: a trace of nine lines, and likewise one of seven
    (header, four internal lines and one frame pair), has an odd number of
    lines and yields no frame at all, whatever its frame lines are. *)
Lemma Stack_nine_lines_counterexample :
  len (Split (StackData (rpc_with_trace trace_9)) nl) = 9 /\
  nth_error (Split (StackData (rpc_with_trace trace_9)) nl) 6
    = Some (tab :: str "foo/bar.go:42 +0x1a") /\
  Stack (rpc_with_trace trace_9) = Ok [] /\
  ~ (exists f, Stack (rpc_with_trace trace_9) = Ok [f]) /\
  len (Split (StackData (rpc_with_trace trace_7)) nl) = 7 /\
  Stack (rpc_with_trace trace_7) = Ok [].
Proof.
  repeat split; try reflexivity.
  intros [f Hf]. vm_compute in Hf. discriminate Hf.
Qed.

(** C1, amended. A trace of exactly 8 lines (the header, four internal
    lines, one frame pair and one closing line, such as the empty line after
    the final line feed) whose pair has the second line
    [<indent><file>:<digits> <rest>], the rest holding no space and no colon
    and the digits denoting a value of [int], yields exactly one frame: its
    location is the file, its call the pair's first line and its line number
    the value of the digits. *)
Theorem Stack_eight_lines_one_frame (r : rpcStat)
    (l0 l1 l2 l3 l4 call closing : gostring)
    (indent : ascii) (file digits rest : gostring) :
  Split (StackData r) nl =
    [l0; l1; l2; l3; l4; call;
     indent :: file ++ colon :: digits ++ space :: rest; closing] ->
  digits <> [] -> forallb is_digit digits = true ->
  decimal_value digits <= maxInt ->
  LastIndex rest space = -1 -> LastIndex rest colon = -1 ->
  Stack r = Ok [ {| Location := file; Call := call;
                    Lineno := decimal_value digits |} ].
Proof.
  intros HS Hne Hd Hmax Hsp Hco.
  set (loc := indent :: file ++ colon :: digits ++ space :: rest) in *.
  assert (Hdc : ~ In colon digits).
  { intros Hin. rewrite forallb_forall in Hd. specialize (Hd _ Hin). discriminate Hd. }
  assert (Hcidx : LastIndex loc colon = len ([indent] ++ file)).
  { unfold loc. change (indent :: file ++ colon :: digits ++ space :: rest)
      with (([indent] ++ file) ++ colon :: digits ++ space :: rest).
    apply LastIndex_last. intros Hin. apply in_app_or in Hin as [Hin|[Hin|Hin]].
    - exact (Hdc Hin).
    - discriminate Hin.
    - exact (LastIndex_absent_inv _ _ Hco Hin). }
  assert (Hidx : LastIndex loc space = len ([indent] ++ file ++ colon :: digits)).
  { unfold loc. replace (indent :: file ++ colon :: digits ++ space :: rest)
      with (([indent] ++ file ++ colon :: digits) ++ space :: rest)
      by (cbn [app]; rewrite <- app_assoc; reflexivity).
    apply LastIndex_last. exact (LastIndex_absent_inv _ _ Hsp). }
  assert (Hloc : slice loc 1 (LastIndex loc colon) = Ok file).
  { rewrite Hcidx, len_app. change 1 with (len [indent]) at 1.
    unfold loc. apply (slice_middle [indent] file (colon :: digits ++ space :: rest)). }
  assert (Hnum : slice loc (LastIndex loc colon + 1) (LastIndex loc space) = Ok digits).
  { rewrite Hcidx, Hidx.
    replace (len ([indent] ++ file) + 1) with (len ([indent] ++ file ++ [colon]))
      by (rewrite !len_app; unfold len; cbn [List.length]; lia).
    replace (len ([indent] ++ file ++ colon :: digits))
      with (len ([indent] ++ file ++ [colon]) + len digits)
      by (rewrite !len_app, len_cons; unfold len; cbn [List.length]; lia).
    replace loc with (([indent] ++ file ++ [colon]) ++ digits ++ space :: rest)
      by (unfold loc; cbn [app]; rewrite <- app_assoc; reflexivity).
    apply slice_middle. }
  rewrite (Stack_of_lines r [l0; l1; l2; l3; l4] [call; loc; closing] HS eq_refl)
    by (exists 1%nat; reflexivity).
  assert (Hc1 : 1 <= LastIndex loc colon).
  { rewrite Hcidx, len_app. unfold len at 1. cbn [List.length].
    pose proof (len_nonneg file). lia. }
  assert (Hci : LastIndex loc colon < LastIndex loc space).
  { rewrite Hcidx, Hidx. unfold len. rewrite !length_app. cbn [List.length]. lia. }
  destruct (Stack_loop_frame call loc [closing] [] Hc1 Hci)
    as (location & num & H1 & H2 & H3).
  etransitivity; [exact H3|].
  rewrite Hloc in H1. rewrite Hnum in H2. injection H1 as <-. injection H2 as <-.
  rewrite (Atoi_digits digits Hne Hd Hmax). reflexivity.
Qed.

Lemma Stack_eight_lines_witness :
  Stack (rpc_with_trace trace_8)
  = Ok [ {| Location := str "foo/bar.go"; Call := str "main.handler(0x1)";
            Lineno := 42 |} ].
Proof.
  apply (Stack_eight_lines_one_frame (rpc_with_trace trace_8)
           (str "goroutine 7 [running]:")
           (str "appstats.override(0x1, 0x2)")
           (tab :: str "appstats/appstats.go:90 +0x2b")
           (str "appengine.APICall(0x1, 0x2)")
           (tab :: str "appengine/api.go:110 +0x4c")
           (str "main.handler(0x1)") [] tab
           (str "foo/bar.go") (str "42") (str "+0x1a")).
  - reflexivity.
  - discriminate.
  - reflexivity.
  - vm_compute. discriminate.
  - reflexivity.
  - reflexivity.
Defined.

(** C2. [Stack] does panic: on a frame line whose first byte is its last
    colon, and on one whose last space comes before its last colon, a slice
    expression is out of range. *)
Theorem Stack_panics_on_malformed_location :
  LastIndex (str ":x y") colon = 0 /\ LastIndex (str ":x y") space = 2 /\
  Stack (rpc_with_trace trace_colon_first) = Panic SliceBoundsOutOfRange /\
  LastIndex (tab :: str "/home/my user/bar.go:42") colon = 21 /\
  LastIndex (tab :: str "/home/my user/bar.go:42") space = 9 /\
  Stack (rpc_with_trace trace_space_before_colon) = Panic SliceBoundsOutOfRange.
Proof. repeat split; reflexivity. Qed.

(** C10, as stated, fails on two kinds of line that hold a space and a
    colon and no decimal integer between them.  A number of 20 digits or
    more followed by another byte makes [Atoi] report a range error before
    it reaches that byte, and the frame gets the largest [int], not 0.  A
    line whose last colon is its first byte makes [Stack] panic, so that no
    frame is appended. *)
Lemma Stack_malformed_number_counterexample :
  (is_decimal (str "99999999999999999999x") = false /\
   Atoi (str "99999999999999999999x") = (9223372036854775807, Some ErrRange) /\
   Stack (rpc_with_trace trace_overlong_number)
   = Ok [ {| Location := str "foo/bar.go"; Call := str "main.handler(0x1)";
             Lineno := 9223372036854775807 |} ]) /\
  (LastIndex (str ":x y") colon = 0 /\ LastIndex (str ":x y") space = 2 /\
   is_decimal (str "x") = false /\
   Stack (rpc_with_trace trace_colon_first) = Panic SliceBoundsOutOfRange).
Proof. repeat split; reflexivity. Qed.

(** C10, amended. Take a frame pair anywhere in a trace that passes the
    line-count guard, the pairs before it being read without panic.  When
    the last colon of its second line is not the first byte and comes before
    the last space, and the bytes between the two are no decimal integer,
    the digits they start with (after an optional sign) staying inside
    uint64, the frame is appended all the same, with [Lineno] 0: the error
    of [Atoi] is dropped, and every stack [Stack] returns holds the
    frame. *)
Theorem Stack_keeps_frame_with_malformed_number (r : rpcStat)
    (hdr pre : list gostring) (call loc : gostring) (rest : list gostring)
    (fs : stack) (num : gostring) :
  Split (StackData r) nl = hdr ++ pre ++ call :: loc :: rest ->
  List.length hdr = 5%nat ->
  Nat.Even (List.length pre) -> Nat.Odd (List.length rest) ->
  Stack_loop pre [] = Ok fs ->
  1 <= LastIndex loc colon -> LastIndex loc colon < LastIndex loc space ->
  slice loc (LastIndex loc colon + 1) (LastIndex loc space) = Ok num ->
  is_decimal num = false ->
  decimal_value (leading_digits (unsigned_part num)) <= maxUint64 ->
  exists location,
    slice loc 1 (LastIndex loc colon) = Ok location /\
    Stack r = Stack_loop rest
                (fs ++ [ {| Location := location; Call := call; Lineno := 0 |} ]) /\
    forall out, Stack r = Ok out ->
                In {| Location := location; Call := call; Lineno := 0 |} out.
Proof.
  intros HS Hh Hpre Hrest Hfs Hc Hi Hnum Hdec Hdigits.
  destruct (Stack_loop_frame call loc rest fs Hc Hi)
    as (location & num' & H1 & H2 & H3).
  rewrite Hnum in H2. injection H2 as <-.
  rewrite (Atoi_bad_byte num Hdec Hdigits) in H3. cbn [fst] in H3.
  assert (HStack : Stack r = Stack_loop rest
            (fs ++ [ {| Location := location; Call := call; Lineno := 0 |} ])).
  { rewrite (Stack_of_lines r hdr (pre ++ call :: loc :: rest) HS Hh).
    - rewrite (Stack_loop_app pre _ [] Hpre), Hfs. cbn [bind]. exact H3.
    - destruct Hpre as [a Ha]. destruct Hrest as [b Hb].
      exists (a + b + 1)%nat. rewrite length_app. cbn [List.length]. lia. }
  exists location. split; [exact H1|]. split; [exact HStack|].
  intros out Hout. rewrite HStack in Hout.
  apply Stack_loop_extends in Hout as [more ->].
  apply in_or_app. left. apply in_or_app. right. left. reflexivity.
Qed.

Lemma Stack_keeps_frame_witness :
  exists location,
    slice long_location 1 11 = Ok location /\
    Stack (rpc_with_trace trace_long_bad_number)
    = Stack_loop [[]]
        ([] ++ [ {| Location := location; Call := str "main.handler(0x1)";
                    Lineno := 0 |} ]) /\
    forall out, Stack (rpc_with_trace trace_long_bad_number) = Ok out ->
                In {| Location := location; Call := str "main.handler(0x1)";
                      Lineno := 0 |} out.
Proof.
  apply (Stack_keeps_frame_with_malformed_number
           (rpc_with_trace trace_long_bad_number) sample_head []
           (str "main.handler(0x1)") long_location
           [[]] [] (str "42 +0x1a fp=0xc00003e758 sp=0xc00003e6f0")).
  - reflexivity.
  - reflexivity.
  - exists 0%nat. reflexivity.
  - exists 0%nat. reflexivity.
  - reflexivity.
  - vm_compute. discriminate.
  - reflexivity.
  - reflexivity.
  - reflexivity.
  - vm_compute. discriminate.
Defined.

(** ** Time buckets *)

Lemma roundTime_nonneg (n : Z) :
  0 <= n -> roundTime n = (n / 1000 / distance) mod modulus * distance.
Proof.
  intros Hn. unfold roundTime, distance, modulus.
  assert (H1 : 0 <= n / 1000) by (apply Z.div_pos; lia).
  assert (H2 : 0 <= n / 1000 / 100) by (apply Z.div_pos; lia).
  rewrite (Z.quot_div_nonneg n 1000) by lia.
  rewrite (Z.quot_div_nonneg (n / 1000) 100) by lia.
  rewrite Z.rem_mod_nonneg by lia.
  apply int_wrap_small. unfold minInt, maxInt, intSize.
  change (2 ^ (64 - 1)) with 9223372036854775808.
  pose proof (Z.mod_pos_bound (n / 1000 / 100) 1000 ltac:(lia)). lia.
Qed.

Lemma roundTime_range (n : Z) :
  0 <= n -> 0 <= roundTime n < modulus * distance.
Proof.
  intros Hn. rewrite roundTime_nonneg by exact Hn. unfold modulus, distance.
  pose proof (Z.mod_pos_bound (n / 1000 / 100) 1000 ltac:(lia)). lia.
Qed.

(** C3. For a nanosecond value [n] of [0, 10^9) the bucket [roundTime n]
    lies in [0, modulus*distance), is a multiple of [distance], and is the
    bucket of [n] moved on by [modulus*distance] microseconds, that is by
    10^8 nanoseconds. *)
Theorem roundTime_bucket (n : Z) :
  0 <= n < 10 ^ 9 ->
  0 <= roundTime n < modulus * distance /\
  (exists k, roundTime n = k * distance) /\
  roundTime (n + modulus * distance * 1000) = roundTime n.
Proof.
  intros [Hn Hlt]. split; [apply roundTime_range; exact Hn|].
  rewrite !roundTime_nonneg by (unfold modulus, distance; lia).
  unfold modulus, distance.
  split; [eexists; reflexivity|].
  f_equal.
  replace (n + 1000 * 100 * 1000) with (n + 100000 * 1000) by lia.
  rewrite Z.div_add by lia.
  replace (n / 1000 + 100000) with (n / 1000 + 1000 * 100) by lia.
  rewrite Z.div_add by lia.
  replace (n / 1000 / 100 + 1000) with (n / 1000 / 100 + 1 * 1000) by lia.
  apply Z.mod_add. lia.
Qed.

Lemma roundTime_bucket_witness :
  0 <= roundTime 40000000 < modulus * distance /\
  (exists k, roundTime 40000000 = k * distance) /\
  roundTime (40000000 + modulus * distance * 1000) = roundTime 40000000.
Proof.
  apply (roundTime_bucket 40000000). vm_compute. split; [discriminate|reflexivity].
Defined.

(** ** The verb [%06d] *)

Lemma digit_char_spec (u : Z) :
  0 <= u < 10 -> is_digit (digit_char u) = true /\ digit_val (digit_char u) = u.
Proof.
  intros H.
  assert (Hu : u = 0 \/ u = 1 \/ u = 2 \/ u = 3 \/ u = 4 \/ u = 5 \/ u = 6 \/
               u = 7 \/ u = 8 \/ u = 9) by lia.
  repeat (destruct Hu as [->|Hu]; [split; reflexivity|]).
  subst u. split; reflexivity.
Qed.

Lemma decimal_from_app (n : Z) (a b : gostring) :
  decimal_from n (a ++ b) = decimal_from (decimal_from n a) b.
Proof. unfold decimal_from. apply fold_left_app. Qed.

Lemma fmt_digits_spec (fuel k : nat) (u : Z) (buf : gostring) :
  (1 <= k <= fuel)%nat -> 0 <= u < 10 ^ Z.of_nat k ->
  exists ds, fmt_digits fuel u buf = ds ++ buf /\
             forallb is_digit ds = true /\ decimal_value ds = u /\
             (1 <= List.length ds <= k)%nat.
Proof.
  revert k u buf. induction fuel as [|fuel IH]; intros k u buf Hk Hu; [lia|].
  cbn [fmt_digits]. destruct (Z.leb_spec 10 u) as [Hge|Hlt].
  - assert (Hk2 : (2 <= k)%nat).
    { destruct k as [|[|k]]; [lia| |lia]. change (10 ^ Z.of_nat 1) with 10 in Hu. lia. }
    assert (Hpow : 10 ^ Z.of_nat k = 10 * 10 ^ Z.of_nat (k - 1)).
    { replace (Z.of_nat k) with (Z.succ (Z.of_nat (k - 1))) by lia.
      apply Z.pow_succ_r. lia. }
    destruct (IH (k - 1)%nat (u / 10) (digit_char (u - u / 10 * 10) :: buf))
      as (ds & Heq & Hd & Hv & Hl).
    + lia.
    + split; [apply Z.div_pos; lia|].
      apply Z.div_lt_upper_bound; lia.
    + destruct (digit_char_spec (u - u / 10 * 10)) as [Hd1 Hv1].
      { pose proof (Z.div_mod u 10 ltac:(lia)).
        pose proof (Z.mod_pos_bound u 10 ltac:(lia)). lia. }
      exists (ds ++ [digit_char (u - u / 10 * 10)]). repeat split.
      * rewrite Heq, <- app_assoc. reflexivity.
      * rewrite forallb_app, Hd. cbn [forallb]. rewrite Hd1. reflexivity.
      * unfold decimal_value in *. rewrite decimal_from_app, Hv.
        cbn. rewrite Hv1. lia.
      * rewrite length_app. cbn [List.length]. lia.
      * rewrite length_app. cbn [List.length]. lia.
  - destruct (digit_char_spec u ltac:(lia)) as [Hd1 Hv1].
    exists [digit_char u]. repeat split.
    + cbn [forallb]. rewrite Hd1. reflexivity.
    + cbn. exact Hv1.
    + cbn [List.length]. lia.
    + cbn [List.length]. lia.
Qed.

Lemma zeros_spec (m : nat) :
  forallb is_digit (repeat "0"%char m) = true /\
  decimal_from 0 (repeat "0"%char m) = 0.
Proof.
  induction m as [|m [IH1 IH2]]; [split; reflexivity|].
  cbn [repeat forallb]. rewrite IH1. split; [reflexivity|].
  exact IH2.
Qed.

(** A value of [0, 10^6) is printed with exactly six digits. *)
Lemma fmt_06d_spec (v : Z) :
  0 <= v < 10 ^ 6 ->
  len (fmt_06d v) = 6 /\ forallb is_digit (fmt_06d v) = true /\
  decimal_value (fmt_06d v) = v.
Proof.
  intros Hv. unfold fmt_06d.
  destruct (Z.ltb_spec v 0) as [Hneg|_]; [lia|].
  destruct (fmt_digits_spec 20 6 v [] ltac:(lia) Hv) as (ds & Heq & Hd & Hval & Hl).
  rewrite Heq, app_nil_r.
  destruct (zeros_spec (6 - List.length ds)) as [Hz1 Hz2].
  repeat split.
  - unfold len. rewrite length_app, repeat_length. lia.
  - rewrite forallb_app, Hz1, Hd. reflexivity.
  - unfold decimal_value in *. rewrite decimal_from_app, Hz2. exact Hval.
Qed.

(** ** Storage keys *)

Lemma Nanosecond_range (t : time.Time) : 0 <= time.Nanosecond t < 10 ^ 9.
Proof.
  destruct t as [s n Hn]. unfold time.Nanosecond. cbn [time.nsec].
  apply andb_true_iff in Hn as [H1 H2]. apply Z.leb_le in H1, H2.
  change (10 ^ 9) with 1000000000. lia.
Qed.

(** C4. The two keys of a request carry the same bucket number: both are
    the prefix [__appstats__:], then the six decimal digits of the bucket,
    then [:part] for the one and [:full] for the other; the bucket 400 gives
    [__appstats__:000400:part] and [__appstats__:000400:full]. *)
Theorem PartKey_FullKey_share_bucket (r : requestStats) :
  (exists d,
     len d = 6 /\ forallb is_digit d = true /\
     decimal_value d = roundTime (time.Nanosecond (Start r)) /\
     PartKey r = str "__appstats__:" ++ d ++ str ":part" /\
     FullKey r = str "__appstats__:" ++ d ++ str ":full") /\
  (roundTime (time.Nanosecond (Start r)) = 400 ->
   PartKey r = str "__appstats__:000400:part" /\
   FullKey r = str "__appstats__:000400:full").
Proof.
  split.
  - exists (fmt_06d (roundTime (time.Nanosecond (Start r)))).
    pose proof (roundTime_range _ (proj1 (Nanosecond_range (Start r)))) as Hb.
    destruct (fmt_06d_spec (roundTime (time.Nanosecond (Start r)))) as (Hl & Hd & Hv).
    { unfold modulus, distance in Hb. change (10 ^ 6) with 1000000. lia. }
    repeat split; assumption || reflexivity.
  - intros H. unfold PartKey, FullKey, keyPart, keyFull. rewrite H.
    split; reflexivity.
Qed.

Lemma PartKey_FullKey_witness :
  PartKey (request_at "/" sample_time) = str "__appstats__:000400:part" /\
  FullKey (request_at "/" sample_time) = str "__appstats__:000400:full".
Proof.
  apply (proj2 (PartKey_FullKey_share_bucket (request_at "/" sample_time))).
  reflexivity.
Defined.

(** C6. The keys depend on the start time through its nanosecond of the
    second only: two requests whose start times agree on it have the same
    part key and the same full key, whatever their seconds are. *)
Theorem keys_depend_on_nanosecond_only (r1 r2 : requestStats) :
  time.Nanosecond (Start r1) = time.Nanosecond (Start r2) ->
  PartKey r1 = PartKey r2 /\ FullKey r1 = FullKey r2.
Proof.
  intros H. unfold PartKey, FullKey. rewrite H. split; reflexivity.
Qed.

Lemma keys_depend_on_nanosecond_only_witness :
  time.sec sample_time <> time.sec sample_time_next_day /\
  PartKey (request_at "/" sample_time)
  = PartKey (request_at "/admin" sample_time_next_day) /\
  FullKey (request_at "/" sample_time)
  = FullKey (request_at "/admin" sample_time_next_day).
Proof.
  split; [discriminate|].
  apply (keys_depend_on_nanosecond_only (request_at "/" sample_time)
           (request_at "/admin" sample_time_next_day)).
  reflexivity.
Defined.

(** ** Ordering *)

Lemma Before_instant (t u : time.Time) :
  time.Before t u = (time.instant t <? time.instant u).
Proof.
  pose proof (Nanosecond_range t) as Ht. pose proof (Nanosecond_range u) as Hu.
  unfold time.Before, time.instant, time.Nanosecond in *.
  change (10 ^ 9) with 1000000000 in *.
  destruct (Z.ltb_spec (time.sec t) (time.sec u));
    destruct (Z.eqb_spec (time.sec t) (time.sec u));
    destruct (Z.ltb_spec (time.nsec t) (time.nsec u));
    destruct (Z.ltb_spec (time.sec t * 1000000000 + time.nsec t)
                         (time.sec u * 1000000000 + time.nsec u));
    cbn [orb andb]; try reflexivity; lia.
Qed.

Lemma Sub_negative (t u : time.Time) :
  (time.Sub t u <? 0) = (time.instant t <? time.instant u).
Proof.
  unfold time.Sub, time.instant.
  set (d := (time.sec t - time.sec u) * 1000000000 + (time.nsec t - time.nsec u)).
  assert (Hmin : time.minDuration = -9223372036854775808) by reflexivity.
  assert (Hmax : time.maxDuration = 9223372036854775807) by reflexivity.
  assert (Hd : (time.sec t * 1000000000 + time.nsec t <?
                time.sec u * 1000000000 + time.nsec u) = (d <? 0)).
  { unfold d.
    destruct (Z.ltb_spec (time.sec t * 1000000000 + time.nsec t)
                         (time.sec u * 1000000000 + time.nsec u));
      destruct (Z.ltb_spec ((time.sec t - time.sec u) * 1000000000
                            + (time.nsec t - time.nsec u)) 0);
      try reflexivity; lia. }
  rewrite Hd.
  destruct (Z.ltb_spec d time.minDuration);
    [|destruct (Z.ltb_spec time.maxDuration d)]; try reflexivity.
  - destruct (Z.ltb_spec time.minDuration 0); destruct (Z.ltb_spec d 0);
      try reflexivity; lia.
  - destruct (Z.ltb_spec time.maxDuration 0); destruct (Z.ltb_spec d 0);
      try reflexivity; lia.
Qed.

(** C7. On [allrequestStats], [Less(i, j)] holds exactly when the start of
    [s[i]] is strictly earlier than the start of [s[j]]; it is the sign of
    the difference [s[i].Start.Sub(s[j].Start)]. *)
Theorem allrequestStats_Less_chronological (s : allrequestStats) (i j : Z)
    (ri rj : requestStats) :
  index s i = Ok (Some ri) -> index s j = Ok (Some rj) ->
  Less s i j = Ok (time.Sub (Start ri) (Start rj) <? 0) /\
  Less s i j = Ok (time.Before (Start ri) (Start rj)) /\
  (Less s i j = Ok true <-> time.instant (Start ri) < time.instant (Start rj)).
Proof.
  intros Hi Hj.
  assert (HL : Less s i j = Ok (time.Sub (Start ri) (Start rj) <? 0)).
  { cbn [Less allrequestStats_Interface]. rewrite Hi, Hj. reflexivity. }
  split; [exact HL|]. rewrite HL, Sub_negative, <- Before_instant.
  split; [reflexivity|]. rewrite Before_instant.
  split.
  - intros H. injection H as H. apply Z.ltb_lt. exact H.
  - intros H. apply Z.ltb_lt in H. rewrite H. reflexivity.
Qed.

Lemma allrequestStats_Less_witness :
  Less [Some (request_at "/" sample_time_next_day);
        Some (request_at "/" sample_time_later)] 1 0 = Ok true /\
  Less [Some (request_at "/" sample_time_next_day);
        Some (request_at "/" sample_time_later)] 0 1 = Ok false.
Proof.
  split.
  - apply (proj2 (proj2 (allrequestStats_Less_chronological
             [Some (request_at "/" sample_time_next_day);
              Some (request_at "/" sample_time_later)] 1 0
             (request_at "/" sample_time_later)
             (request_at "/" sample_time_next_day) eq_refl eq_refl))).
    reflexivity.
  - reflexivity.
Defined.

(** C8. On [statsByName], [Less(i, j)] holds exactly when the count of
    [s[i]] is smaller than the count of [s[j]]. *)
Theorem statsByName_Less_by_count (s : statsByName) (i j : Z)
    (ni nj : statByName) :
  index s i = Ok (Some ni) -> index s j = Ok (Some nj) ->
  Less s i j = Ok (Count ni <? Count nj) /\
  (Less s i j = Ok true <-> Count ni < Count nj).
Proof.
  intros Hi Hj.
  assert (HL : Less s i j = Ok (Count ni <? Count nj)).
  { cbn [Less statsByName_Interface]. rewrite Hi, Hj. reflexivity. }
  split; [exact HL|]. rewrite HL. split.
  - intros H. injection H as H. apply Z.ltb_lt. exact H.
  - intros H. apply Z.ltb_lt in H. rewrite H. reflexivity.
Qed.

Lemma statsByName_Less_witness :
  Less [Some (stat_with_count "A.x" 2); Some (stat_with_count "B.y" 1)] 1 0
  = Ok true.
Proof.
  apply (proj2 (statsByName_Less_by_count
           [Some (stat_with_count "A.x" 2); Some (stat_with_count "B.y" 1)] 1 0
           (stat_with_count "B.y" 1) (stat_with_count "A.x" 2)
           eq_refl eq_refl)).
  reflexivity.
Defined.

(** C9. [reverse] answers [Less(i, j)] with the embedded [Less(j, i)],
    for every implementation of the interface; around the count comparator
    it holds exactly when the count of [s[i]] is larger than that of
    [s[j]], which is the descending order. *)
Theorem reverse_Less_swaps :
  (forall (A : Type) (I : Interface A) (s : A) (i j : Z),
     Less (mk_reverse s) i j = Less s j i) /\
  (forall (s : statsByName) (i j : Z) (ni nj : statByName),
     index s i = Ok (Some ni) -> index s j = Ok (Some nj) ->
     Less (mk_reverse s) i j = Ok (Count nj <? Count ni)).
Proof.
  split.
  - intros A I s i j. reflexivity.
  - intros s i j ni nj Hi Hj.
    cbn [Less reverse_Interface embedded statsByName_Interface].
    rewrite Hi, Hj. reflexivity.
Qed.

Lemma reverse_Less_witness :
  Less (mk_reverse [Some (stat_with_count "A.x" 2);
                    Some (stat_with_count "B.y" 1)]) 0 1 = Ok true.
Proof.
  apply (proj2 reverse_Less_swaps
           [Some (stat_with_count "A.x" 2); Some (stat_with_count "B.y" 1)] 0 1
           (stat_with_count "A.x" 2) (stat_with_count "B.y" 1)
           eq_refl eq_refl).
Defined.

(** * Further properties *)

(** ** The whole of [Stack] *)

Lemma pair_induction {A : Type} (P : list A -> Prop) :
  P [] -> (forall x, P [x]) -> (forall x y l, P l -> P (x :: y :: l)) ->
  forall l, P l.
Proof.
  intros H0 H1 H2 l.
  assert (H : P l /\ forall x, P (x :: l)).
  { induction l as [|a l [IH1 IH2]]; [split; [exact H0|exact H1]|].
    split; [apply IH2|]. intros x. apply H2. exact IH1. }
  exact (proj1 H).
Qed.

(** [Stack] behind its guard, on any lines. *)
Lemma Stack_unfold (r : rpcStat) :
  Stack r =
  if (len (Split (StackData r) nl) <? 7)
     || negb (Z.rem (len (Split (StackData r) nl)) 2 =? 0)
  then Ok []
  else Stack_loop (skipn 5 (Split (StackData r) nl)) [].
Proof.
  unfold Stack. set (lines := Split (StackData r) nl).
  destruct (Z.ltb_spec (len lines) 7) as [Hlt|Hge]; [reflexivity|].
  cbn [orb]. destruct (negb (Z.rem (len lines) 2 =? 0)); [reflexivity|].
  destruct lines as [|h0 [|h1 [|h2 [|h3 [|h4 body]]]]];
    try (unfold len in Hge; cbn [List.length] in Hge; lia).
  unfold slice_from.
  assert (H1 : (0 <=? 1) && (1 <=? len (h0 :: h1 :: h2 :: h3 :: h4 :: body)) = true).
  { rewrite andb_true_iff, !Z.leb_le. lia. }
  rewrite H1. cbn [bind]. change (Z.to_nat 1) with 1%nat. cbn [skipn].
  assert (H4 : (0 <=? 4) && (4 <=? len (h1 :: h2 :: h3 :: h4 :: body)) = true).
  { rewrite andb_true_iff, !Z.leb_le, !len_cons. pose proof (len_nonneg body). lia. }
  rewrite H4. cbn [bind]. change (Z.to_nat 4) with 4%nat. cbn [skipn].
  apply (Stack_for_loop (List.length body) [] body []). lia.
Qed.

Lemma slice_ok (s : gostring) (lo hi : Z) :
  0 <= lo -> lo <= hi -> hi <= len s ->
  slice s lo hi = Ok (firstn (Z.to_nat (hi - lo)) (skipn (Z.to_nat lo) s)).
Proof.
  intros H1 H2 H3. unfold slice.
  destruct (Z.leb_spec 0 lo); [|lia]. destruct (Z.leb_spec lo hi); [|lia].
  destruct (Z.leb_spec hi (len s)); [|lia]. reflexivity.
Qed.

(** One turn of the loop in each of its three cases. *)
Lemma Stack_loop_step (call loc : gostring) (rest : list gostring)
    (frames : stack) :
  Stack_loop (call :: loc :: rest) frames =
  if has_delimiters loc
  then if slices_in_range loc
       then Stack_loop rest (frames ++ [frame_of call loc])
       else Panic SliceBoundsOutOfRange
  else Stack_loop rest frames.
Proof.
  cbn [Stack_loop]. unfold has_delimiters, slices_in_range.
  destruct ((LastIndex loc space =? -1) || (LastIndex loc colon =? -1)) eqn:E;
    cbn [negb]; [reflexivity|].
  apply orb_false_iff in E as [Es Ec].
  apply Z.eqb_neq in Es, Ec.
  pose proof (LastIndex_range loc space) as Hs.
  pose proof (LastIndex_range loc colon) as Hc.
  destruct (Z.leb_spec 1 (LastIndex loc colon)) as [H1|H1]; cbn [andb].
  - rewrite (slice_ok loc 1 (LastIndex loc colon)) by lia. cbn [bind].
    destruct (Z.ltb_spec (LastIndex loc colon) (LastIndex loc space)) as [H2|H2].
    + rewrite slice_ok by lia. reflexivity.
    + rewrite slice_panics by lia. reflexivity.
  - rewrite slice_panics by lia. reflexivity.
Qed.

Lemma Stack_loop_spec (lines : list gostring) (frames : stack) :
  Stack_loop lines frames =
  if forallb line_ok (location_lines lines)
  then Ok (frames ++ frames_of lines)
  else Panic SliceBoundsOutOfRange.
Proof.
  revert frames.
  induction lines as [| |call loc rest IH] using pair_induction; intros frames.
  - cbn. rewrite app_nil_r. reflexivity.
  - cbn. rewrite app_nil_r. reflexivity.
  - rewrite Stack_loop_step. cbn [location_lines forallb frames_of].
    unfold line_ok at 1. destruct (has_delimiters loc); cbn [negb orb].
    + destruct (slices_in_range loc); cbn [andb]; [|reflexivity].
      rewrite IH, <- app_assoc. reflexivity.
    + cbn [andb app]. apply IH.
Qed.

Lemma usable_guard (r : rpcStat) :
  (len (Split (StackData r) nl) <? 7)
  || negb (Z.rem (len (Split (StackData r) nl)) 2 =? 0) = negb (usable r).
Proof.
  unfold usable, trace_lines. set (n := len (Split (StackData r) nl)).
  assert (Hn : 0 <= n) by apply len_nonneg.
  rewrite Z.rem_mod_nonneg, Zmod_even by lia.
  destruct (Z.ltb_spec n 7); destruct (Z.leb_spec 7 n); try lia;
    destruct (Z.even n); reflexivity.
Qed.

(** X1. [Stack] in full.  A trace of fewer than 7 lines or of an odd number
    of lines gives the empty stack.  Otherwise the first five lines are
    dropped and the rest is read in pairs: each pair whose second line holds
    a space and a colon gives one frame, in the order of the trace, the other
    pairs give none; and the call panics, on a slice out of range, exactly
    when some such second line has its last colon at index 0 or after its
    last space. *)
Theorem Stack_spec (r : rpcStat) :
  Stack r =
  if usable r
  then if forallb line_ok (location_lines (frame_lines r))
       then Ok (frames_of (frame_lines r))
       else Panic SliceBoundsOutOfRange
  else Ok [].
Proof.
  rewrite Stack_unfold, usable_guard.
  destruct (usable r); cbn [negb]; [|reflexivity].
  apply Stack_loop_spec.
Qed.

Lemma length_location_lines (lines : list gostring) :
  (2 * List.length (location_lines lines) <= List.length lines)%nat.
Proof.
  induction lines as [| |x y l IH] using pair_induction;
    cbn [location_lines List.length]; lia.
Qed.

Lemma length_frames_of (lines : list gostring) :
  (List.length (frames_of lines) <= List.length (location_lines lines))%nat.
Proof.
  induction lines as [| |x y l IH] using pair_induction;
    cbn [location_lines frames_of List.length]; try lia.
  rewrite length_app. destruct (has_delimiters y); cbn [List.length]; lia.
Qed.

(** X2. [Stack] never returns more frames than there are pairs of lines
    after the header, the four internal lines and before the closing line:
    twice the number of frames is at most the number of lines less 6. *)
Theorem Stack_frame_count (r : rpcStat) (out : stack) :
  Stack r = Ok out ->
  2 * len out <= Z.max 0 (len (trace_lines r) - 6).
Proof.
  rewrite Stack_unfold, usable_guard. intros H.
  destruct (usable r) eqn:Hu; cbn [negb] in H.
  - rewrite Stack_loop_spec in H.
    destruct (forallb line_ok _); [|discriminate H].
    rewrite app_nil_l in H.
    assert (E : out = frames_of (skipn 5 (trace_lines r)))
      by (unfold trace_lines; congruence).
    subst out. clear H.
    apply andb_true_iff in Hu as [H7 He]. apply Z.leb_le in H7.
    pose proof (length_frames_of (skipn 5 (trace_lines r))) as Hf.
    pose proof (length_location_lines (skipn 5 (trace_lines r))) as Hl.
    rewrite length_skipn in Hl.
    assert (Hodd : len (trace_lines r) <> 2 * len (frames_of (skipn 5 (trace_lines r))) + 5).
    { intros E. rewrite E in He.
      rewrite Z.even_add, Z.even_mul in He. discriminate He. }
    unfold len in *. lia.
  - injection H as <-. unfold len at 1. cbn [List.length]. lia.
Qed.

Lemma Stack_frame_count_witness :
  2 * len [fp_frame (nth 0 sample_pairs (mk_frame_pair [] tab [] [] []))]
  <= Z.max 0 (len (trace_lines (rpc_with_trace trace_8)) - 6).
Proof.
  apply (Stack_frame_count (rpc_with_trace trace_8)). reflexivity.
Defined.

Lemma fp_lines_ok (p : frame_pair) :
  fp_wf p = true ->
  let loc := fp_indent p :: fp_file p ++ colon :: fp_digits p ++ space :: fp_rest p in
  has_delimiters loc = true /\ slices_in_range loc = true /\
  frame_of (fp_call p) loc = fp_frame p.
Proof.
  destruct p as [call indent file digits rest]. intros Hwf loc.
  unfold fp_wf in Hwf.
  cbn [fp_call fp_indent fp_file fp_digits fp_rest] in Hwf, loc |- *.
  apply andb_true_iff in Hwf as [Hwf Hco]. apply andb_true_iff in Hwf as [Hwf Hsp].
  apply andb_true_iff in Hwf as [Hwf Hmax]. apply andb_true_iff in Hwf as [Hwf Hd].
  apply Z.ltb_lt in Hwf. apply Z.leb_le in Hmax. apply Z.eqb_eq in Hsp, Hco.
  assert (Hne : digits <> []) by (intros ->; unfold len in Hwf; cbn in Hwf; lia).
  assert (Hdc : ~ In colon digits).
  { intros Hin. rewrite forallb_forall in Hd. specialize (Hd _ Hin). discriminate Hd. }
  assert (Hcidx : LastIndex loc colon = len ([indent] ++ file)).
  { unfold loc. change (indent :: file ++ colon :: digits ++ space :: rest)
      with (([indent] ++ file) ++ colon :: digits ++ space :: rest).
    apply LastIndex_last. intros Hin. apply in_app_or in Hin as [Hin|[Hin|Hin]].
    - exact (Hdc Hin).
    - discriminate Hin.
    - exact (LastIndex_absent_inv _ _ Hco Hin). }
  assert (Hidx : LastIndex loc space = len ([indent] ++ file ++ colon :: digits)).
  { unfold loc. replace (indent :: file ++ colon :: digits ++ space :: rest)
      with (([indent] ++ file ++ colon :: digits) ++ space :: rest)
      by (cbn [app]; rewrite <- app_assoc; reflexivity).
    apply LastIndex_last. exact (LastIndex_absent_inv _ _ Hsp). }
  assert (Hc1 : 1 <= LastIndex loc colon).
  { rewrite Hcidx. unfold len. rewrite length_app. cbn [List.length]. lia. }
  assert (Hci : LastIndex loc colon < LastIndex loc space).
  { rewrite Hcidx, Hidx. unfold len. rewrite !length_app. cbn [List.length]. lia. }
  pose proof (LastIndex_range loc space) as Hr.
  assert (Hloc : firstn (Z.to_nat (LastIndex loc colon - 1)) (skipn 1 loc) = file).
  { assert (E : slice loc 1 (LastIndex loc colon) = Ok file).
    { rewrite Hcidx, len_app. change 1 with (len [indent]) at 1.
      unfold loc. apply (slice_middle [indent] file (colon :: digits ++ space :: rest)). }
    rewrite slice_ok in E by lia. injection E as E. exact E. }
  assert (Hnum : firstn (Z.to_nat (LastIndex loc space - (LastIndex loc colon + 1)))
                   (skipn (Z.to_nat (LastIndex loc colon + 1)) loc) = digits).
  { assert (E : slice loc (LastIndex loc colon + 1) (LastIndex loc space) = Ok digits).
    { rewrite Hcidx, Hidx.
      replace (len ([indent] ++ file) + 1) with (len ([indent] ++ file ++ [colon]))
        by (rewrite !len_app; unfold len; cbn [List.length]; lia).
      replace (len ([indent] ++ file ++ colon :: digits))
        with (len ([indent] ++ file ++ [colon]) + len digits)
        by (rewrite !len_app, len_cons; unfold len; cbn [List.length]; lia).
      replace loc with (([indent] ++ file ++ [colon]) ++ digits ++ space :: rest)
        by (unfold loc; cbn [app]; rewrite <- app_assoc; reflexivity).
      apply slice_middle. }
    rewrite slice_ok in E by lia. injection E as E. exact E. }
  split; [|split].
  - unfold has_delimiters.
    destruct (Z.eqb_spec (LastIndex loc space) (-1)); [lia|].
    destruct (Z.eqb_spec (LastIndex loc colon) (-1)); [lia|]. reflexivity.
  - unfold slices_in_range. rewrite andb_true_iff, Z.leb_le, Z.ltb_lt. lia.
  - unfold frame_of, fp_frame. cbn [fp_call fp_file fp_digits].
    rewrite Hloc, Hnum, (Atoi_digits digits Hne Hd Hmax). reflexivity.
Qed.

Lemma Stack_loop_well_formed (ps : list frame_pair) (closing : gostring)
    (frames : stack) :
  forallb fp_wf ps = true ->
  Stack_loop (flat_map fp_lines ps ++ [closing]) frames
  = Ok (frames ++ map fp_frame ps).
Proof.
  revert frames. induction ps as [|p ps IH]; intros frames Hwf.
  - cbn. rewrite app_nil_r. reflexivity.
  - cbn [forallb] in Hwf. apply andb_true_iff in Hwf as [Hp Hps].
    destruct (fp_lines_ok p Hp) as (Hd & Hs & Hf).
    cbn [flat_map fp_lines app map]. rewrite Stack_loop_step, Hd, Hs, Hf.
    rewrite (IH _ Hps), <- app_assoc. reflexivity.
Qed.

(** X3. A trace as the runtime prints it, with any number of frame pairs:
    five lines, then pairs of a call line and a line
    [<indent><file>:<digits> <rest>] (digits of an [int], no space and no
    colon in the rest), then one closing line.  [Stack] returns one frame per
    pair, in the order of the trace, with the file as location, the call
    line as call and the value of the digits as line number. *)
Theorem Stack_well_formed_trace (r : rpcStat) (hdr : list gostring)
    (ps : list frame_pair) (closing : gostring) :
  trace_lines r = hdr ++ flat_map fp_lines ps ++ [closing] ->
  List.length hdr = 5%nat -> forallb fp_wf ps = true ->
  Stack r = Ok (map fp_frame ps).
Proof.
  intros HS Hh Hwf.
  rewrite (Stack_of_lines r hdr (flat_map fp_lines ps ++ [closing]) HS Hh).
  - apply (Stack_loop_well_formed ps closing [] Hwf).
  - exists (List.length ps). rewrite length_app. cbn [List.length].
    clear. induction ps as [|p ps IH]; [reflexivity|].
    cbn [flat_map fp_lines app List.length] in *. lia.
Qed.

Lemma Stack_well_formed_trace_witness :
  Stack (rpc_with_trace trace_two_pairs)
  = Ok [ {| Location := str "foo/bar.go"; Call := str "main.handler(0x1)";
            Lineno := 42 |};
         {| Location := str "foo/main.go"; Call := str "main.main()";
            Lineno := 7 |} ].
Proof.
  apply (Stack_well_formed_trace (rpc_with_trace trace_two_pairs)
           sample_head sample_pairs []); reflexivity.
Defined.

(** X4. A frame pair whose second line holds no space or no colon leaves
    no trace in the result: [Stack] returns, or panics, as on the trace
    without the two lines. *)
Theorem Stack_skips_pair (r r' : rpcStat) (hdr pre : list gostring)
    (call loc : gostring) (rest : list gostring) :
  trace_lines r = hdr ++ pre ++ call :: loc :: rest ->
  trace_lines r' = hdr ++ pre ++ rest ->
  List.length hdr = 5%nat ->
  Nat.Even (List.length pre) -> Nat.Odd (List.length rest) ->
  LastIndex loc space = -1 \/ LastIndex loc colon = -1 ->
  Stack r = Stack r'.
Proof.
  intros HS HS' Hh Hpre Hrest Hloc.
  destruct Hpre as [a Ha]. destruct Hrest as [b Hb].
  rewrite (Stack_of_lines r hdr (pre ++ call :: loc :: rest) HS Hh)
    by (exists (a + b + 1)%nat; rewrite length_app; cbn [List.length]; lia).
  rewrite (Stack_of_lines r' hdr (pre ++ rest) HS' Hh)
    by (exists (a + b)%nat; rewrite length_app; lia).
  rewrite !Stack_loop_app by (exists a; exact Ha).
  destruct (Stack_loop pre []) as [fs|p]; cbn [bind]; [|reflexivity].
  apply Stack_loop_skip. exact Hloc.
Qed.

Lemma Stack_skips_pair_witness :
  Stack (rpc_with_trace trace_with_skipped_pair)
  = Stack (rpc_with_trace trace_without_skipped_pair).
Proof.
  apply (Stack_skips_pair (rpc_with_trace trace_with_skipped_pair)
           (rpc_with_trace trace_without_skipped_pair) sample_head []
           (str "main.handler(0x1)") (tab :: str "foo/bar.go:42")
           [str "main.main()"; tab :: str "foo/main.go:7 +0x20"; []]).
  - reflexivity.
  - reflexivity.
  - reflexivity.
  - exists 0%nat. reflexivity.
  - exists 1%nat. reflexivity.
  - left. reflexivity.
Defined.

(** X5. [Stack] reads neither the first five lines nor the last one: two
    traces that agree on the lines in between have the same result. *)
Theorem Stack_ignores_head_and_closing (r r' : rpcStat)
    (hdr hdr' body : list gostring) (closing closing' : gostring) :
  trace_lines r = hdr ++ body ++ [closing] ->
  trace_lines r' = hdr' ++ body ++ [closing'] ->
  List.length hdr = 5%nat -> List.length hdr' = 5%nat ->
  Nat.Even (List.length body) ->
  Stack r = Stack r'.
Proof.
  intros HS HS' Hh Hh' [a Ha].
  rewrite (Stack_of_lines r hdr (body ++ [closing]) HS Hh)
    by (exists a; rewrite length_app; cbn [List.length]; lia).
  rewrite (Stack_of_lines r' hdr' (body ++ [closing']) HS' Hh')
    by (exists a; rewrite length_app; cbn [List.length]; lia).
  rewrite !Stack_loop_app by (exists a; exact Ha).
  destruct (Stack_loop body []); reflexivity.
Qed.

Lemma Stack_ignores_head_and_closing_witness :
  Stack (rpc_with_trace trace_8) = Stack (rpc_with_trace trace_8_other_head).
Proof.
  apply (Stack_ignores_head_and_closing (rpc_with_trace trace_8)
           (rpc_with_trace trace_8_other_head) sample_head
           [str "goroutine 99 [runnable]:"; str "a"; str "b"; str "c"; str "d"]
           [str "main.handler(0x1)"; sample_location] [] (str "exit status 2")).
  - reflexivity.
  - reflexivity.
  - reflexivity.
  - reflexivity.
  - exists 1%nat. reflexivity.
Defined.

(** ** More on time buckets *)

(** X6. The bucket of a nanosecond value is its count of whole
    microseconds, taken modulo [modulus*distance] and rounded down to a
    multiple of [distance]. *)
Theorem roundTime_rounds_down (n : Z) :
  0 <= n ->
  roundTime n = (n / 1000) mod (modulus * distance) - (n / 1000) mod distance.
Proof.
  intros Hn. rewrite roundTime_nonneg by exact Hn. unfold modulus, distance.
  replace (1000 * 100) with (100 * 1000) by reflexivity.
  rewrite (Z.rem_mul_r (n / 1000) 100 1000) by lia. lia.
Qed.

Lemma roundTime_rounds_down_witness :
  roundTime 123456789
  = (123456789 / 1000) mod (modulus * distance) - (123456789 / 1000) mod distance.
Proof. apply (roundTime_rounds_down 123456789). discriminate. Defined.

Lemma roundTime_window (n : Z) :
  0 <= n -> roundTime n = (n / 100000) mod 1000 * 100.
Proof.
  intros Hn. rewrite roundTime_nonneg by exact Hn. unfold modulus, distance.
  rewrite Z.div_div by lia. reflexivity.
Qed.

(** X7. Inside one cycle of [modulus*distance] microseconds (10^8
    nanoseconds), two nanosecond values have the same bucket exactly when
    they lie in the same window of 100 microseconds. *)
Theorem roundTime_same_window (n m : Z) :
  0 <= n -> 0 <= m -> n / 100000000 = m / 100000000 ->
  (roundTime n = roundTime m <-> n / 100000 = m / 100000).
Proof.
  intros Hn Hm Hc. rewrite !roundTime_window by assumption.
  assert (Hdn : n / 100000000 = n / 100000 / 1000) by (rewrite Z.div_div by lia; reflexivity).
  assert (Hdm : m / 100000000 = m / 100000 / 1000) by (rewrite Z.div_div by lia; reflexivity).
  rewrite Hdn, Hdm in Hc.
  pose proof (Z.div_mod (n / 100000) 1000 ltac:(lia)) as En.
  pose proof (Z.div_mod (m / 100000) 1000 ltac:(lia)) as Em.
  split; intros H; [|rewrite H; reflexivity]. lia.
Qed.

Lemma roundTime_same_window_witness :
  roundTime 400000 = roundTime 400001 <-> 400000 / 100000 = 400001 / 100000.
Proof.
  apply (roundTime_same_window 400000 400001); [discriminate|discriminate|reflexivity].
Defined.

(** X8. Every multiple of [distance] below [modulus*distance] is a bucket:
    [k*distance] is the bucket of the nanosecond value [k*distance*1000],
    which lies inside the second.  So there are exactly [modulus]
    buckets. *)
Theorem roundTime_onto (k : Z) :
  0 <= k < modulus ->
  0 <= k * distance * 1000 < 10 ^ 9 /\
  roundTime (k * distance * 1000) = k * distance.
Proof.
  unfold modulus, distance. intros Hk. change (10 ^ 9) with 1000000000.
  split; [lia|]. rewrite roundTime_window by lia.
  replace (k * 100 * 1000) with (k * 100000) by lia.
  rewrite Z.div_mul, Z.mod_small by lia. reflexivity.
Qed.

Lemma roundTime_onto_witness :
  0 <= 999 * distance * 1000 < 10 ^ 9 /\
  roundTime (999 * distance * 1000) = 999 * distance.
Proof.
  apply (roundTime_onto 999). vm_compute. split; [discriminate|reflexivity].
Defined.

(** X9. On every [int] the arithmetic of [roundTime] stays far from the
    bounds of [int]: the result is the truncated quotient and remainder
    taken in the integers, and a multiple of [distance] strictly between
    [-modulus*distance] and [modulus*distance].  It follows the sign of the
    argument: for every [i] but the smallest [int], whose negation wraps
    around to itself, [roundTime(-i) = -roundTime(i)]. *)
Theorem roundTime_no_overflow (i : Z) :
  minInt <= i <= maxInt ->
  roundTime i = Z.rem (Z.quot (Z.quot i 1000) distance) modulus * distance /\
  - (modulus * distance) < roundTime i < modulus * distance /\
  (minInt < i -> roundTime (int_wrap (- i)) = int_wrap (- roundTime i)) /\
  int_wrap (- roundTime i) = - roundTime i.
Proof.
  intros Hi.
  assert (Hw : forall j, roundTime j
                = Z.rem (Z.quot (Z.quot j 1000) distance) modulus * distance
                /\ - (modulus * distance) < roundTime j < modulus * distance).
  { intros j. unfold roundTime, distance, modulus.
    pose proof (Z.rem_bound_abs (Z.quot (Z.quot j 1000) 100) 1000 ltac:(lia)) as Hb.
    assert (Hr : -1000 < Z.rem (Z.quot (Z.quot j 1000) 100) 1000 < 1000) by lia.
    rewrite int_wrap_small.
    - split; [reflexivity|lia].
    - unfold minInt, maxInt, intSize.
      change (2 ^ (64 - 1)) with 9223372036854775808. lia. }
  destruct (Hw i) as [Ei Hbi].
  assert (Hneg : int_wrap (- roundTime i) = - roundTime i).
  { apply int_wrap_small. unfold modulus, distance in Hbi.
    unfold minInt, maxInt, intSize.
    change (2 ^ (64 - 1)) with 9223372036854775808. lia. }
  split; [exact Ei|]. split; [exact Hbi|]. split; [|exact Hneg].
  intros Hmin. rewrite Hneg.
  rewrite (int_wrap_small (- i)).
  - destruct (Hw (- i)) as [En _]. rewrite En, Ei. unfold distance, modulus.
    rewrite !Z.quot_opp_l, Z.rem_opp_l by lia. lia.
  - unfold minInt, maxInt, intSize in *.
    change (2 ^ (64 - 1)) with 9223372036854775808 in *. lia.
Qed.

Lemma roundTime_no_overflow_witness :
  roundTime (-123456789)
  = Z.rem (Z.quot (Z.quot (-123456789) 1000) distance) modulus * distance /\
  - (modulus * distance) < roundTime (-123456789) < modulus * distance /\
  (minInt < -123456789 ->
   roundTime (int_wrap (- -123456789)) = int_wrap (- roundTime (-123456789))) /\
  int_wrap (- roundTime (-123456789)) = - roundTime (-123456789).
Proof.
  apply (roundTime_no_overflow (-123456789)). vm_compute. split; discriminate.
Defined.

(** ** More on storage keys *)

Lemma app_same_length {A : Type} (a a' b b' : list A) :
  List.length a = List.length a' -> a ++ b = a' ++ b' -> a = a' /\ b = b'.
Proof.
  revert a'. induction a as [|x a IH]; intros [|x' a'] Hl H;
    cbn [List.length] in Hl; try discriminate Hl.
  - split; [reflexivity|exact H].
  - cbn [app] in H. injection H as -> H.
    destruct (IH a' ltac:(lia) H) as [-> ->]. split; reflexivity.
Qed.

Lemma bucket_range (r : requestStats) :
  0 <= roundTime (time.Nanosecond (Start r)) < 10 ^ 6.
Proof.
  pose proof (roundTime_range _ (proj1 (Nanosecond_range (Start r)))) as Hb.
  unfold modulus, distance in Hb. change (10 ^ 6) with 1000000. lia.
Qed.

Lemma fmt_06d_injective (v w : Z) :
  0 <= v < 10 ^ 6 -> 0 <= w < 10 ^ 6 -> fmt_06d v = fmt_06d w -> v = w.
Proof.
  intros Hv Hw H.
  destruct (fmt_06d_spec v Hv) as (_ & _ & Ev).
  destruct (fmt_06d_spec w Hw) as (_ & _ & Ew).
  rewrite <- Ev, <- Ew, H. reflexivity.
Qed.

(** X10. The keys tell the buckets apart: two requests have the same part
    key exactly when they have the same bucket, and likewise for the full
    key; so they share the one key exactly when they share the other. *)
Theorem keys_injective_in_bucket (r1 r2 : requestStats) :
  (PartKey r1 = PartKey r2 <->
   roundTime (time.Nanosecond (Start r1)) = roundTime (time.Nanosecond (Start r2))) /\
  (FullKey r1 = FullKey r2 <->
   roundTime (time.Nanosecond (Start r1)) = roundTime (time.Nanosecond (Start r2))).
Proof.
  pose proof (bucket_range r1) as H1. pose proof (bucket_range r2) as H2.
  unfold PartKey, FullKey, keyPart, keyFull.
  split; (split; [|intros ->; reflexivity]); intros H;
    apply app_inv_head, app_inv_tail in H;
    exact (fmt_06d_injective _ _ H1 H2 H).
Qed.

(** X11. No part key is a full key: the two kinds of record never meet
    under one key, whatever the two requests are. *)
Theorem PartKey_is_no_FullKey (r1 r2 : requestStats) :
  PartKey r1 <> FullKey r2.
Proof.
  unfold PartKey, FullKey, keyPart, keyFull. intros H.
  apply app_inv_head in H.
  destruct (fmt_06d_spec _ (bucket_range r1)) as (L1 & _ & _).
  destruct (fmt_06d_spec _ (bucket_range r2)) as (L2 & _ & _).
  apply app_same_length in H as [_ H]; [discriminate H|].
  unfold len in *. lia.
Qed.

(** ** More on ordering *)

Lemma index_ok_iff {A : Type} (s : list A) (i : Z) (a : A) :
  index s i = Ok a <-> 0 <= i < len s /\ nth_error s (Z.to_nat i) = Some a.
Proof.
  unfold index.
  destruct (Z.leb_spec 0 i); destruct (Z.ltb_spec i (len s)); cbn [andb];
    try (split; [discriminate|lia]).
  destruct (nth_error s (Z.to_nat i)) as [x|] eqn:E.
  - split; [intros H'; injection H' as ->; tauto|intros [_ H']; congruence].
  - split; [discriminate|intros [_ H']; discriminate H'].
Qed.

Lemma index_in_range {A : Type} (s : list A) (i : Z) :
  0 <= i < len s -> exists a, index s i = Ok a.
Proof.
  intros H. destruct (nth_error s (Z.to_nat i)) as [a|] eqn:E.
  - exists a. apply index_ok_iff. tauto.
  - apply nth_error_None in E. unfold len in H. lia.
Qed.

Lemma index_out_of_range {A : Type} (s : list A) (i : Z) :
  ~ 0 <= i < len s -> index s i = Panic IndexOutOfRange.
Proof.
  intros H. unfold index.
  destruct (Z.leb_spec 0 i); destruct (Z.ltb_spec i (len s)); cbn [andb];
    try reflexivity. lia.
Qed.

Lemma allrequestStats_Less_instant (s : allrequestStats) (i j : Z)
    (ri rj : requestStats) :
  index s i = Ok (Some ri) -> index s j = Ok (Some rj) ->
  Less s i j = Ok (time.instant (Start ri) <? time.instant (Start rj)).
Proof.
  intros Hi Hj. cbn [Less allrequestStats_Interface]. rewrite Hi, Hj.
  cbn [bind deref]. rewrite Sub_negative. reflexivity.
Qed.

Lemma statsByName_Less_count (s : statsByName) (i j : Z)
    (ni nj : statByName) :
  index s i = Ok (Some ni) -> index s j = Ok (Some nj) ->
  Less s i j = Ok (Count ni <? Count nj).
Proof.
  intros Hi Hj. cbn [Less statsByName_Interface]. rewrite Hi, Hj. reflexivity.
Qed.

Ltac ltb_cases :=
  repeat match goal with
         | H : Ok _ = Ok _ |- _ => injection H as H
         | H : (_ <? _) = true |- _ => apply Z.ltb_lt in H
         | H : (_ <? _) = false |- _ => apply Z.ltb_ge in H
         | |- Ok _ = Ok _ => f_equal
         | |- (_ <? _) = true => apply Z.ltb_lt
         | |- (_ <? _) = false => apply Z.ltb_ge
         end.

(** X12. The chronological comparator is a strict weak order on the
    entries of a slice, as sorting requires: no request is before itself,
    the order is asymmetric and transitive, and so is its negation, also for
    start times too far apart for their difference to fit a [Duration]. *)
Theorem allrequestStats_Less_strict_weak_order (s : allrequestStats)
    (i j k : Z) (ri rj rk : requestStats) :
  index s i = Ok (Some ri) -> index s j = Ok (Some rj) ->
  index s k = Ok (Some rk) ->
  Less s i i = Ok false /\
  (Less s i j = Ok true -> Less s j i = Ok false) /\
  (Less s i j = Ok true -> Less s j k = Ok true -> Less s i k = Ok true) /\
  (Less s i j = Ok false -> Less s j k = Ok false -> Less s i k = Ok false).
Proof.
  intros Hi Hj Hk.
  rewrite (allrequestStats_Less_instant s i i ri ri Hi Hi),
    (allrequestStats_Less_instant s i j ri rj Hi Hj),
    (allrequestStats_Less_instant s j i rj ri Hj Hi),
    (allrequestStats_Less_instant s j k rj rk Hj Hk),
    (allrequestStats_Less_instant s i k ri rk Hi Hk).
  repeat split; intros; ltb_cases; lia.
Qed.

Lemma allrequestStats_Less_strict_weak_order_witness :
  Less sample_requests 2 2 = Ok false /\
  (Less sample_requests 2 1 = Ok true -> Less sample_requests 1 2 = Ok false) /\
  (Less sample_requests 2 1 = Ok true -> Less sample_requests 1 0 = Ok true ->
   Less sample_requests 2 0 = Ok true) /\
  (Less sample_requests 2 1 = Ok false -> Less sample_requests 1 0 = Ok false ->
   Less sample_requests 2 0 = Ok false).
Proof.
  apply (allrequestStats_Less_strict_weak_order sample_requests 2 1 0
           (request_at "/b" sample_time) (request_at "/a" sample_time_later)
           (request_at "/" sample_time_next_day)); reflexivity.
Defined.

(** X13. The count comparator is a strict weak order on the entries of a
    slice: irreflexive, asymmetric, transitive, and with a transitive
    negation (nodes of equal count are tied). *)
Theorem statsByName_Less_strict_weak_order (s : statsByName)
    (i j k : Z) (ni nj nk : statByName) :
  index s i = Ok (Some ni) -> index s j = Ok (Some nj) ->
  index s k = Ok (Some nk) ->
  Less s i i = Ok false /\
  (Less s i j = Ok true -> Less s j i = Ok false) /\
  (Less s i j = Ok true -> Less s j k = Ok true -> Less s i k = Ok true) /\
  (Less s i j = Ok false -> Less s j k = Ok false -> Less s i k = Ok false).
Proof.
  intros Hi Hj Hk.
  rewrite (statsByName_Less_count s i i ni ni Hi Hi),
    (statsByName_Less_count s i j ni nj Hi Hj),
    (statsByName_Less_count s j i nj ni Hj Hi),
    (statsByName_Less_count s j k nj nk Hj Hk),
    (statsByName_Less_count s i k ni nk Hi Hk).
  repeat split; intros; ltb_cases; lia.
Qed.

Lemma statsByName_Less_strict_weak_order_witness :
  Less sample_stats 1 1 = Ok false /\
  (Less sample_stats 1 0 = Ok true -> Less sample_stats 0 1 = Ok false) /\
  (Less sample_stats 1 0 = Ok true -> Less sample_stats 0 2 = Ok true ->
   Less sample_stats 1 2 = Ok true) /\
  (Less sample_stats 1 0 = Ok false -> Less sample_stats 0 2 = Ok false ->
   Less sample_stats 1 2 = Ok false).
Proof.
  apply (statsByName_Less_strict_weak_order sample_stats 1 0 2
           (stat_with_count "B.y" 1) (stat_with_count "A.x" 2)
           (stat_with_count "C.z" 2)); reflexivity.
Defined.

(** X14. [Less] on either slice type returns only for two indices in
    range whose entries are not nil; an index out of range, or a nil entry,
    makes it panic. *)
Theorem Less_returns_iff :
  (forall (s : allrequestStats) (i j : Z),
     (exists b, Less s i j = Ok b) <->
     (exists ri rj, index s i = Ok (Some ri) /\ index s j = Ok (Some rj))) /\
  (forall (s : statsByName) (i j : Z),
     (exists b, Less s i j = Ok b) <->
     (exists ni nj, index s i = Ok (Some ni) /\ index s j = Ok (Some nj))).
Proof.
  split; intros s i j; cbn [Less allrequestStats_Interface statsByName_Interface];
    (split; [intros [b H]|intros (a & c & Ha & Hc)]).
  - destruct (index s i) as [[ri|]|]; cbn [bind deref] in H; try discriminate H.
    destruct (index s j) as [[rj|]|]; cbn [bind deref] in H; try discriminate H.
    eauto.
  - rewrite Ha, Hc. cbn [bind deref]. eauto.
  - destruct (index s i) as [[ri|]|]; cbn [bind deref] in H; try discriminate H.
    destruct (index s j) as [[rj|]|]; cbn [bind deref] in H; try discriminate H.
    eauto.
  - rewrite Ha, Hc. cbn [bind deref]. eauto.
Qed.

(** ** [Swap] *)

Lemma length_set_nth {A : Type} (l : list A) (n : nat) (a : A) :
  List.length (set_nth l n a) = List.length l.
Proof.
  revert n. induction l as [|x l IH]; intros [|n]; cbn [set_nth List.length];
    try reflexivity. rewrite IH. reflexivity.
Qed.

Lemma nth_error_set_nth {A : Type} (l : list A) (n k : nat) (a : A) :
  nth_error (set_nth l n a) k =
  if (Nat.eqb k n) && (Nat.ltb n (List.length l)) then Some a else nth_error l k.
Proof.
  revert n k. induction l as [|x l IH]; intros n k.
  - cbn [set_nth List.length]. destruct n; rewrite andb_false_r; reflexivity.
  - destruct n as [|n]; destruct k as [|k]; cbn [set_nth nth_error]; try reflexivity.
    rewrite IH. reflexivity.
Qed.

Lemma set_nth_permutation_one {A : Type} (l : list A) (n : nat) (x h : A) :
  nth_error l n = Some x -> Permutation (x :: set_nth l n h) (h :: l).
Proof.
  revert n. induction l as [|y l IH]; intros [|n] H; cbn in H; try discriminate H.
  - injection H as ->. cbn [set_nth]. apply perm_swap.
  - cbn [set_nth]. rewrite perm_swap. rewrite (IH n H). apply perm_swap.
Qed.

Lemma set_nth_permutation {A : Type} (l : list A) (n m : nat) (x y : A) :
  nth_error l n = Some x -> nth_error l m = Some y ->
  Permutation (set_nth (set_nth l n y) m x) l.
Proof.
  revert n m. induction l as [|h l IH]; intros [|n] [|m] Hn Hm;
    cbn in Hn, Hm; try discriminate.
  - injection Hn as ->. injection Hm as ->. reflexivity.
  - injection Hn as ->. cbn [set_nth]. apply set_nth_permutation_one. exact Hm.
  - injection Hm as ->. cbn [set_nth]. apply set_nth_permutation_one. exact Hn.
  - cbn [set_nth]. apply perm_skip. apply IH; assumption.
Qed.

Lemma swap_elems_ok {A : Type} (s s' : list A) (i j : Z) :
  swap_elems s i j = Ok s' ->
  exists a b,
    (0 <= i < len s /\ nth_error s (Z.to_nat i) = Some b) /\
    (0 <= j < len s /\ nth_error s (Z.to_nat j) = Some a) /\
    s' = set_nth (set_nth s (Z.to_nat i) a) (Z.to_nat j) b.
Proof.
  unfold swap_elems. intros H.
  destruct (index s j) as [a|] eqn:Ej; cbn [bind] in H; [|discriminate H].
  destruct (index s i) as [b|] eqn:Ei; cbn [bind] in H; [|discriminate H].
  injection H as <-. apply index_ok_iff in Ei, Ej. eauto 6.
Qed.

Lemma index_nth_error {A : Type} (s t : list A) (i k : Z) :
  len s = len t -> 0 <= i -> 0 <= k ->
  nth_error s (Z.to_nat i) = nth_error t (Z.to_nat k) ->
  i < len s -> k < len t ->
  index s i = index t k.
Proof.
  intros Hl Hi Hk E Hi' Hk'. unfold index.
  destruct (Z.leb_spec 0 i); [|lia]. destruct (Z.leb_spec 0 k); [|lia].
  destruct (Z.ltb_spec i (len s)); [|lia]. destruct (Z.ltb_spec k (len t)); [|lia].
  cbn [andb]. rewrite E. reflexivity.
Qed.

Lemma swap_elems_in_range {A : Type} (s : list A) (i j : Z) :
  0 <= i < len s -> 0 <= j < len s -> exists s', swap_elems s i j = Ok s'.
Proof.
  intros Hi Hj. unfold swap_elems.
  destruct (index_in_range s j Hj) as [a ->].
  destruct (index_in_range s i Hi) as [b ->]. cbn [bind]. eauto.
Qed.

(** X15. [Swap] on either slice type returns exactly when both indices
    are in range, and panics otherwise. *)
Theorem Swap_returns_iff {A : Type} (s : list A) (i j : Z) :
  (exists s', swap_elems s i j = Ok s') <->
  (0 <= i < len s /\ 0 <= j < len s).
Proof.
  split.
  - intros [s' H]. apply swap_elems_ok in H as (a & b & [Hi _] & [Hj _] & _).
    tauto.
  - intros [Hi Hj]. apply swap_elems_in_range; assumption.
Qed.

Lemma swap_elems_nth {A : Type} (s s' : list A) (i j : Z) :
  swap_elems s i j = Ok s' ->
  exists a b,
    (0 <= i < len s /\ nth_error s (Z.to_nat i) = Some b) /\
    (0 <= j < len s /\ nth_error s (Z.to_nat j) = Some a) /\
    len s' = len s /\
    forall k, nth_error s' k
              = if Nat.eqb k (Z.to_nat j) then Some b
                else if Nat.eqb k (Z.to_nat i) then Some a else nth_error s k.
Proof.
  intros H. apply swap_elems_ok in H as (a & b & [Hi Ei] & [Hj Ej] & ->).
  exists a, b. repeat split; try assumption || lia.
  - unfold len. rewrite !length_set_nth. reflexivity.
  - intros k. rewrite !nth_error_set_nth, length_set_nth.
    assert (Hlj : Nat.ltb (Z.to_nat j) (List.length s) = true)
      by (apply Nat.ltb_lt; unfold len in Hj; lia).
    assert (Hli : Nat.ltb (Z.to_nat i) (List.length s) = true)
      by (apply Nat.ltb_lt; unfold len in Hi; lia).
    rewrite Hlj, Hli, !andb_true_r. reflexivity.
Qed.

Lemma swap_elems_index {A : Type} (s s' : list A) (i j : Z) :
  swap_elems s i j = Ok s' ->
  index s' i = index s j /\ index s' j = index s i.
Proof.
  intros H.
  apply swap_elems_nth in H as (a & b & [Hi Ei] & [Hj Ej] & Hl & Hn).
  split.
  - apply index_nth_error; try lia. rewrite Hn, Ej.
    destruct (Nat.eqb_spec (Z.to_nat i) (Z.to_nat j)) as [E|E].
    + rewrite <- E, Ei in Ej. exact Ej.
    + rewrite Nat.eqb_refl. reflexivity.
  - apply index_nth_error; try lia. rewrite Hn, Ei, Nat.eqb_refl. reflexivity.
Qed.

(** X16. What [Swap] does: the slice keeps its length, the entries at [i]
    and [j] change places, and every other entry stays where it is. *)
Theorem Swap_exchanges {A : Type} (s s' : list A) (i j : Z) :
  swap_elems s i j = Ok s' ->
  len s' = len s /\ index s' i = index s j /\ index s' j = index s i /\
  forall k, k <> i -> k <> j -> index s' k = index s k.
Proof.
  intros H. destruct (swap_elems_index s s' i j H) as [Hsi Hsj].
  apply swap_elems_nth in H as (a & b & [Hi Ei] & [Hj Ej] & Hl & Hn).
  split; [exact Hl|]. split; [exact Hsi|]. split; [exact Hsj|].
  intros k Hki Hkj.
  destruct (Z_lt_le_dec k 0) as [Hneg|Hpos];
    [rewrite !index_out_of_range by lia; reflexivity|].
  destruct (Z_lt_le_dec k (len s)) as [Hlt|Hge];
    [|rewrite !index_out_of_range by lia; reflexivity].
  apply index_nth_error; try lia. rewrite Hn.
  destruct (Nat.eqb_spec (Z.to_nat k) (Z.to_nat j)); [lia|].
  destruct (Nat.eqb_spec (Z.to_nat k) (Z.to_nat i)); [lia|]. reflexivity.
Qed.

Lemma Swap_exchanges_witness :
  len [Some (stat_with_count "B.y" 1); Some (stat_with_count "A.x" 2);
       Some (stat_with_count "C.z" 2)] = len sample_stats /\
  index [Some (stat_with_count "B.y" 1); Some (stat_with_count "A.x" 2);
         Some (stat_with_count "C.z" 2)] 0 = index sample_stats 1 /\
  index [Some (stat_with_count "B.y" 1); Some (stat_with_count "A.x" 2);
         Some (stat_with_count "C.z" 2)] 1 = index sample_stats 0 /\
  forall k, k <> 0 -> k <> 1 ->
    index [Some (stat_with_count "B.y" 1); Some (stat_with_count "A.x" 2);
           Some (stat_with_count "C.z" 2)] k = index sample_stats k.
Proof. apply (Swap_exchanges sample_stats _ 0 1). reflexivity. Defined.

(** X17. [Swap] only rearranges: the slice after it is a permutation of
    the slice before, and a second [Swap] of the same indices gives the
    first slice back. *)
Theorem Swap_permutes_and_undoes {A : Type} (s s' : list A) (i j : Z) :
  swap_elems s i j = Ok s' ->
  Permutation s s' /\ swap_elems s' i j = Ok s.
Proof.
  intros H. split.
  - apply swap_elems_ok in H as (a & b & [Hi Ei] & [Hj Ej] & ->).
    symmetry. apply set_nth_permutation; assumption.
  - apply swap_elems_nth in H as (a & b & [Hi Ei] & [Hj Ej] & Hl & Hn).
    destruct (swap_elems_in_range s' i j ltac:(lia) ltac:(lia)) as [s'' H''].
    rewrite H''. f_equal.
    apply swap_elems_nth in H'' as (a' & b' & [_ Ei'] & [_ Ej'] & _ & Hn').
    apply nth_error_ext. intros k. rewrite Hn', Hn.
    rewrite Hn in Ei', Ej'. rewrite Nat.eqb_refl in Ej'. injection Ej' as <-.
    destruct (Nat.eqb_spec k (Z.to_nat j)) as [->|Hkj].
    + destruct (Nat.eqb_spec (Z.to_nat i) (Z.to_nat j)) as [E|E].
      * rewrite <- E, Ei. symmetry. exact Ei'.
      * rewrite Nat.eqb_refl in Ei'. rewrite Ej. symmetry. exact Ei'.
    + destruct (Nat.eqb_spec k (Z.to_nat i)) as [->|Hki]; [|reflexivity].
      symmetry. exact Ei.
Qed.

Lemma Swap_permutes_and_undoes_witness :
  Permutation sample_stats
    [Some (stat_with_count "B.y" 1); Some (stat_with_count "A.x" 2);
     Some (stat_with_count "C.z" 2)] /\
  swap_elems [Some (stat_with_count "B.y" 1); Some (stat_with_count "A.x" 2);
              Some (stat_with_count "C.z" 2)] 0 1 = Ok sample_stats.
Proof. apply (Swap_permutes_and_undoes sample_stats _ 0 1). reflexivity. Defined.

(** X18. [Swap] and [Less] together, on either slice type: after the
    entries at [i] and [j] have changed places, [Less(i, j)] answers, or
    panics, as [Less(j, i)] did before. *)
Theorem Less_after_Swap :
  (forall (s s' : allrequestStats) (i j : Z),
     Swap s i j = Ok s' -> Less s' i j = Less s j i) /\
  (forall (s s' : statsByName) (i j : Z),
     Swap s i j = Ok s' -> Less s' i j = Less s j i).
Proof.
  split; intros s s' i j H;
    cbn [Swap allrequestStats_Interface statsByName_Interface] in H;
    apply swap_elems_index in H as (Hi & Hj);
    cbn [Less allrequestStats_Interface statsByName_Interface];
    rewrite Hi, Hj; reflexivity.
Qed.

Lemma Less_after_Swap_witness :
  Less [Some (stat_with_count "B.y" 1); Some (stat_with_count "A.x" 2);
        Some (stat_with_count "C.z" 2)] 0 1 = Less sample_stats 1 0.
Proof. apply (proj2 Less_after_Swap sample_stats _ 0 1). reflexivity. Defined.

(** X19. Ascending and descending order on [statsByName] disagree except
    on ties: for two entries, exactly one of these holds: the comparator
    puts [i] before [j], its [reverse] puts [i] before [j], or the two counts
    are equal and neither does. *)
Theorem reverse_Less_trichotomy (s : statsByName) (i j : Z)
    (ni nj : statByName) :
  index s i = Ok (Some ni) -> index s j = Ok (Some nj) ->
  (Less s i j = Ok true /\ Less (mk_reverse s) i j = Ok false
   /\ Count ni < Count nj) \/
  (Less s i j = Ok false /\ Less (mk_reverse s) i j = Ok true
   /\ Count nj < Count ni) \/
  (Less s i j = Ok false /\ Less (mk_reverse s) i j = Ok false
   /\ Count ni = Count nj).
Proof.
  intros Hi Hj.
  change (Less (mk_reverse s) i j) with (Less s j i).
  rewrite (statsByName_Less_count s i j ni nj Hi Hj),
    (statsByName_Less_count s j i nj ni Hj Hi).
  destruct (Z.ltb_spec (Count ni) (Count nj));
    destruct (Z.ltb_spec (Count nj) (Count ni)); try lia.
  - left. repeat split; assumption || reflexivity.
  - right. left. repeat split; assumption || reflexivity.
  - right. right. repeat split; try reflexivity. lia.
Qed.

Lemma reverse_Less_trichotomy_witness :
  (Less sample_stats 0 2 = Ok true /\ Less (mk_reverse sample_stats) 0 2 = Ok false
   /\ Count (stat_with_count "A.x" 2) < Count (stat_with_count "C.z" 2)) \/
  (Less sample_stats 0 2 = Ok false /\ Less (mk_reverse sample_stats) 0 2 = Ok true
   /\ Count (stat_with_count "C.z" 2) < Count (stat_with_count "A.x" 2)) \/
  (Less sample_stats 0 2 = Ok false /\ Less (mk_reverse sample_stats) 0 2 = Ok false
   /\ Count (stat_with_count "A.x" 2) = Count (stat_with_count "C.z" 2)).
Proof.
  apply (reverse_Less_trichotomy sample_stats 0 2); reflexivity.
Defined.

(** ** [Name] *)

Lemma app_pivot_absent (c : ascii) (a a' b b' : gostring) :
  ~ In c a -> ~ In c a' -> a ++ c :: b = a' ++ c :: b' -> a = a' /\ b = b'.
Proof.
  revert a'. induction a as [|x a IH]; intros [|x' a'] Ha Ha' H; cbn [app] in H.
  - injection H as ->. tauto.
  - injection H as <- _. exfalso. apply Ha'. left. reflexivity.
  - injection H as -> _. exfalso. apply Ha. left. reflexivity.
  - injection H as -> H.
    destruct (IH a') as [-> ->]; try tauto.
    + intros Hin. apply Ha. right. exact Hin.
    + intros Hin. apply Ha'. right. exact Hin.
Qed.

(** X20. [Name] tells calls apart as long as service names hold no dot:
    two call records with dot-free services have the same name only if they
    have the same service and the same method. *)
Theorem rpcStat_Name_injective (r1 r2 : rpcStat) :
  LastIndex (Service r1) "."%char = -1 ->
  LastIndex (Service r2) "."%char = -1 ->
  rpcStat_Name r1 = rpcStat_Name r2 ->
  Service r1 = Service r2 /\ rpc_Method r1 = rpc_Method r2.
Proof.
  intros H1 H2 H. unfold rpcStat_Name in H.
  apply (app_pivot_absent "."%char); try exact H;
    apply LastIndex_absent_inv; assumption.
Qed.

Lemma rpcStat_Name_injective_witness :
  Service (rpc_with_trace trace_8) = Service (rpc_with_trace trace_9) /\
  rpc_Method (rpc_with_trace trace_8) = rpc_Method (rpc_with_trace trace_9).
Proof.
  apply (rpcStat_Name_injective (rpc_with_trace trace_8) (rpc_with_trace trace_9));
    reflexivity.
Defined.
